(** * pdf-extractor-api: the orchestration layer, embedded and verified

    A shallow embedding of [app/services/pdf_service.py],
    [app/services/llm_service.py] and the [extract_pdf] handler of
    [app/controllers/pdf_controller.py].

    Python values are modelled as the code has them: a [str] is a sequence
    of Unicode code points, a [dict] is an insertion-ordered association
    list, exceptions are an error result, and the mutable world (database,
    image folder, the cached LLM handle, calls to outside engines) is a
    state threaded through every call. *)

From Stdlib Require Import String Ascii.
From Stdlib Require Import List NArith Arith Bool Lia.
From Stdlib Require DecimalNat.
Import ListNotations.

Set Implicit Arguments.
Open Scope list_scope.

(* ================================================================== *)
(** ** Python strings *)

Module PyStr.

(** A character is a Unicode code point. *)
Definition char := N.
Definition str := list char.

(** The code points of an ASCII literal of the source. *)
Definition lit (s : string) : str :=
  map N_of_ascii (list_ascii_of_string s).

Definition char_eqb (a b : char) : bool := N.eqb a b.

Fixpoint str_eqb (a b : str) : bool :=
  match a, b with
  | [], [] => true
  | x :: a', y :: b' => char_eqb x y && str_eqb a' b'
  | _, _ => false
  end.

(** [s.startswith(p)] *)
Fixpoint startswith (s p : str) {struct p} : bool :=
  match p, s with
  | [], _ => true
  | c :: p', d :: s' => char_eqb c d && startswith s' p'
  | _ :: _, [] => false
  end.

(** [s.endswith(p)] *)
Definition endswith (s p : str) : bool := startswith (rev s) (rev p).

(** [str.isspace] on one code point: the code points Python's [strip]
    removes. *)
Definition isspace (c : char) : bool :=
  ((9 <=? c) && (c <=? 13) || (28 <=? c) && (c <=? 32)
   || (c =? 133) || (c =? 160) || (c =? 5760)
   || (8192 <=? c) && (c <=? 8202)
   || (c =? 8232) || (c =? 8233) || (c =? 8239) || (c =? 8287)
   || (c =? 12288))%N.

Fixpoint lstrip (s : str) : str :=
  match s with
  | [] => []
  | c :: s' => if isspace c then lstrip s' else s
  end.

Definition rstrip (s : str) : str := rev (lstrip (rev s)).

(** [s.strip()] *)
Definition strip (s : str) : str := rstrip (lstrip s).

(** Truth value of a string: non-empty. *)
Definition truthy (s : str) : bool :=
  match s with [] => false | _ :: _ => true end.

(** [c.lower()] for one code point.  ASCII capitals map to their small
    letters; the two code points outside ASCII whose lower case reaches
    ASCII are written out (KELVIN SIGN, and LATIN CAPITAL LETTER I WITH
    DOT ABOVE, which becomes two code points).  Every other code point is
    left as it is: Python maps the other cased letters to code points
    outside ASCII, so the result is Python's on ASCII strings and in every
    comparison with an ASCII string, and not otherwise. *)
Definition lower_char (c : char) : str :=
  (if (65 <=? c) && (c <=? 90) then [c + 32]
   else if c =? 8490 then [107]
   else if c =? 304 then [105; 775]
   else [c])%N.

(** [s.lower()] *)
Definition lower (s : str) : str := flat_map lower_char s.

(** [s[:k]] for a non-negative bound. *)
Fixpoint slice_to (k : N) (s : str) : str :=
  match s with
  | [] => []
  | c :: s' => if (k =? 0)%N then [] else c :: slice_to (N.pred k) s'
  end.

(** [sep.join(parts)] *)
Fixpoint join (sep : str) (parts : list str) : str :=
  match parts with
  | [] => []
  | [p] => p
  | p :: rest => p ++ sep ++ join sep rest
  end.

(** Decimal digits of an unsigned decimal number, most significant first. *)
Fixpoint uint_chars (d : Decimal.uint) : str :=
  match d with
  | Decimal.Nil => []
  | Decimal.D0 d => 48%N :: uint_chars d
  | Decimal.D1 d => 49%N :: uint_chars d
  | Decimal.D2 d => 50%N :: uint_chars d
  | Decimal.D3 d => 51%N :: uint_chars d
  | Decimal.D4 d => 52%N :: uint_chars d
  | Decimal.D5 d => 53%N :: uint_chars d
  | Decimal.D6 d => 54%N :: uint_chars d
  | Decimal.D7 d => 55%N :: uint_chars d
  | Decimal.D8 d => 56%N :: uint_chars d
  | Decimal.D9 d => 57%N :: uint_chars d
  end.

(** [str(n)] / [f"{n}"] for a non-negative [int]. *)
Definition str_of_nat (n : nat) : str := uint_chars (Nat.to_uint n).

Definition is_digit (c : char) : bool := ((48 <=? c) && (c <=? 57))%N.

(** Reading back a run of decimal digits. *)
Fixpoint chars_uint (s : str) : option Decimal.uint :=
  match s with
  | [] => Some Decimal.Nil
  | c :: s' =>
      match chars_uint s' with
      | None => None
      | Some d =>
          if (c =? 48)%N then Some (Decimal.D0 d)
          else if (c =? 49)%N then Some (Decimal.D1 d)
          else if (c =? 50)%N then Some (Decimal.D2 d)
          else if (c =? 51)%N then Some (Decimal.D3 d)
          else if (c =? 52)%N then Some (Decimal.D4 d)
          else if (c =? 53)%N then Some (Decimal.D5 d)
          else if (c =? 54)%N then Some (Decimal.D6 d)
          else if (c =? 55)%N then Some (Decimal.D7 d)
          else if (c =? 56)%N then Some (Decimal.D8 d)
          else if (c =? 57)%N then Some (Decimal.D9 d)
          else None
      end
  end.

(** [int(s)] on a non-empty run of decimal digits. *)
Definition nat_of_str (s : str) : option nat :=
  match s with
  | [] => None
  | _ => option_map Nat.of_uint (chars_uint s)
  end.

End PyStr.
Export PyStr.

(* ================================================================== *)
(** ** Python dicts: insertion-ordered maps *)

Module PyDict.
Section Dict.
Variable V : Type.

Definition dict := list (str * V).

(** [k in d] *)
Fixpoint contains (d : dict) (k : str) : bool :=
  match d with
  | [] => false
  | (k', _) :: d' => str_eqb k' k || contains d' k
  end.

(** [d[k] = v]: an existing key keeps its position, a new key goes last. *)
Fixpoint set (d : dict) (k : str) (v : V) : dict :=
  match d with
  | [] => [(k, v)]
  | (k', v') :: d' =>
      if str_eqb k' k then (k', v) :: d' else (k', v') :: set d' k v
  end.

(** [d[k]] *)
Fixpoint get (d : dict) (k : str) : option V :=
  match d with
  | [] => None
  | (k', v') :: d' => if str_eqb k' k then Some v' else get d' k
  end.

Definition keys (d : dict) : list str := map fst d.

(** [len(d)] *)
Definition len (d : dict) : nat := length d.
End Dict.
End PyDict.

(* ================================================================== *)
(** ** Exceptions and results *)

(** The exceptions the modelled code raises or receives.  All of them are
    subclasses of Python's [Exception], so [except Exception] catches each
    one. *)
Inductive exn : Type :=
| ValueError (msg : str)
| HTTPException (status_code : nat) (detail : str)
| IntegrityError (msg : str)
| EngineError (msg : str).

(** [str(e)].  An [HTTPException] prints as its status code, a colon and
    its detail; the others print their message. *)
Definition exn_str (e : exn) : str :=
  match e with
  | ValueError msg => msg
  | HTTPException sc detail => str_of_nat sc ++ lit ": " ++ detail
  | IntegrityError msg => msg
  | EngineError msg => msg
  end.

Inductive result (A : Type) : Type :=
| Ok (a : A)
| Raise (e : exn).
Arguments Ok {A} a.
Arguments Raise {A} e.

Definition HTTP_400_BAD_REQUEST : nat := 400.
Definition HTTP_500_INTERNAL_SERVER_ERROR : nat := 500.
Definition HTTP_404_NOT_FOUND : nat := 404.

(* ================================================================== *)
(** ** Schemas ([app/models/schemas.py]) *)

Definition bytes := list N.
Definition datetime := N.

Module FileInfo.
Record t : Type := mk { filename : str; path : str }.
End FileInfo.

Module UploadFile.
Record t : Type := mk { filename : str; content : bytes }.
End UploadFile.

Module ImageLink.
Record t : Type := mk {
  url : str;
  page : nat;
  index : nat;
  filename : str;
  document_id : str
}.
End ImageLink.

(** [TextData.pages] and [TableData.pages] are dicts keyed by page label. *)
Definition TextData := PyDict.dict str.
Definition TableData (table : Type) := PyDict.dict (list table).

Module PDFExtractResponse.
Record t (table : Type) : Type := mk {
  id : str;
  filename : str;
  text : TextData;
  tables : TableData table;
  images : list ImageLink.t;
  summary : option str;
  created_at : datetime
}.
Arguments mk {table}.
Arguments id {table}.
Arguments filename {table}.
Arguments text {table}.
Arguments tables {table}.
Arguments images {table}.
Arguments summary {table}.
Arguments created_at {table}.
End PDFExtractResponse.

(** The status [GET /llm/status] reports. *)
Module LLMStatus.
Record t : Type := mk {
  available : bool;
  provider : str;
  model : str;
  host : str
}.
End LLMStatus.

(** [Settings] of [app/config.py], the fields the modelled code reads. *)
Module Settings.
Record t : Type := mk {
  API_PREFIX : str;
  LLM_PROVIDER : str;
  OLLAMA_HOST : str;
  OLLAMA_MODEL : str;
  OPENROUTER_API_KEY : str;
  OPENROUTER_MODEL : str;
  OPENROUTER_SITE_URL : str;
  OPENROUTER_SITE_NAME : str;
  IMAGE_FOLDER : str
}.
End Settings.

(* ================================================================== *)
(** ** Storage rows

    [app/database/models.py] is not among the sources.  The rows carry the
    attributes the services and the controller read from them. *)

Module TextContent.
(** Modelled from the spec: the TextPage row of the missing
    [app/database/models.py]: page number (1-based) and text content. *)
Record t : Type := mk { page_number : nat; content : str }.
End TextContent.

Module Image.
(** Modelled from the spec: the Image row of the missing
    [app/database/models.py]: page number, image index and generated file
    name. *)
Record t : Type := mk { page_number : nat; image_index : nat; filename : str }.
End Image.

Module Table.
(** Modelled from the spec: the Table row of the missing
    [app/database/models.py]: page number, table index and the serialized
    table content. *)
Record t : Type := mk { page_number : nat; table_index : nat; table_data : str }.
End Table.

Module PDFDocument.
(** Modelled from the spec: the Document row of the missing
    [app/database/models.py]; it owns its text, image and table rows, as
    the relationships [document.text_contents], [document.images] and
    [document.tables] present them. *)
Record t : Type := mk {
  id : str;
  filename : str;
  original_filename : str;
  created_at : datetime;
  text_contents : list TextContent.t;
  images : list Image.t;
  tables : list Table.t
}.
End PDFDocument.

Definition Database := list PDFDocument.t.

(* ================================================================== *)
(** ** Outside engines and the world *)

(** What PyMuPDF shows of an embedded image: [extract_image(xref)]. *)
Module BaseImage.
Record t : Type := mk { image : bytes; ext : str }.
End BaseImage.

(** What PyMuPDF shows of a page: [get_text()] and, for each entry of
    [get_images(full=True)], the image it refers to. *)
Module FitzPage.
Record t : Type := mk { get_text : str; get_images : list BaseImage.t }.
End FitzPage.

(** The chat model handles [get_llm] builds. *)
Inductive ChatModel : Type :=
| ChatOllama (base_url model : str)
| ChatOpenAI (api_key base_url model : str)
             (default_headers : option (PyDict.dict str)).

Inductive Message : Type :=
| SystemMessage (content : str)
| HumanMessage (content : str).

(** Calls that leave the process. *)
Inductive event : Type :=
| EvSaveUpload (filename : str)
| EvFitzOpen (path : str)
| EvPdfplumberOpen (path : str)
| EvLLMInvoke (llm : ChatModel) (messages : list Message).

Module World.
Record t : Type := mk {
  db : Database;
  image_folder : list (str * bytes);
  _llm : option ChatModel;
  trace : list event
}.
End World.

(* ================================================================== *)
(** ** State and exceptions *)

Definition M (A : Type) : Type := World.t -> result A * World.t.

Definition ret {A} (a : A) : M A := fun w => (Ok a, w).

Definition raise {A} (e : exn) : M A := fun w => (Raise e, w).

Definition bind {A B} (m : M A) (k : A -> M B) : M B :=
  fun w =>
    match m w with
    | (Ok a, w') => k a w'
    | (Raise e, w') => (Raise e, w')
    end.

(** [try: m  except Exception as e: h e] *)
Definition try_except {A} (m : M A) (h : exn -> M A) : M A :=
  fun w =>
    match m w with
    | (Ok a, w') => (Ok a, w')
    | (Raise e, w') => h e w'
    end.

(** Lifting the outcome of an engine call. *)
Definition lift {A} (r : result A) : M A := fun w => (r, w).

Definition log (ev : event) : M unit :=
  fun w => (Ok tt, World.mk (World.db w) (World.image_folder w)
                            (World._llm w) (World.trace w ++ [ev])).

Definition get_db : M Database := fun w => (Ok (World.db w), w).

Definition put_db (d : Database) : M unit :=
  fun w => (Ok tt, World.mk d (World.image_folder w)
                            (World._llm w) (World.trace w)).

(** [image.save(image_path)]: the file is in the image folder afterwards.
    A save that fails is not modelled. *)
Definition write_image (name : str) (data : bytes) : M unit :=
  fun w => (Ok tt, World.mk (World.db w) (World.image_folder w ++ [(name, data)])
                            (World._llm w) (World.trace w)).

Definition get_cached_llm : M (option ChatModel) :=
  fun w => (Ok (World._llm w), w).

Definition set_cached_llm (m : ChatModel) : M unit :=
  fun w => (Ok tt, World.mk (World.db w) (World.image_folder w)
                            (Some m) (World.trace w)).

Declare Scope py_scope.
Delimit Scope py_scope with py.
Notation "x <- m ;; k" := (bind m (fun x => k))
  (at level 61, m at next level, right associativity) : py_scope.
Notation "m ;;; k" := (bind m (fun _ => k))
  (at level 61, right associativity) : py_scope.
Open Scope py_scope.

(** [f"Page {n}"] *)
Definition page_label (n : nat) : str := lit "Page " ++ str_of_nat n.

(** [f"{document_id}_page_{page}_image_{index}.{image_ext}"] *)
Definition image_filename_of (document_id : str) (page index : nat)
    (image_ext : str) : str :=
  document_id ++ lit "_page_" ++ str_of_nat page ++ lit "_image_"
    ++ str_of_nat index ++ lit "." ++ image_ext.

Definition nl : str := [10%N].

(* ================================================================== *)
(** ** The services *)

(** Outside collaborators: the PDF engine, the image decoder, the table
    engine, the JSON codec, the LLM backend, the clock, the configuration;
    and the helpers of [app/utils/file_utils.py] and
    [app/database/models.py], which are not among the sources.  [table] is
    the type of one extracted table ([Any] in the schemas). *)
Record Engines (table : Type) : Type := {
  settings : Settings.t;
  fitz_open : str -> result (list FitzPage.t);
  PILImage_open : bytes -> result bytes;
  pdfplumber_open : str -> result (list (list table));
  json_dumps : table -> str;
  json_loads : str -> result table;
  llm_invoke : ChatModel -> list Message -> result str;
  get_image_url : str -> str;
  save_upload_file_io : UploadFile.t -> result FileInfo.t;
  generate_uuid : Database -> str;
  utcnow : datetime
}.

Section Services.

Variable table : Type.
Variable E : Engines table.

(* ------------------------------------------------------------------ *)
(** *** [PDFRepository]

    [app/database/repository.py] is not among the sources; its operations
    are modelled from the data model of the specification. *)

Definition has_id (document_id : str) (doc : PDFDocument.t) : bool :=
  str_eqb (PDFDocument.id doc) document_id.

(** Modelled from the spec: [PDFRepository.create_document] of the missing
    [app/database/repository.py].  It stores a new document, without rows,
    under a generated identifier; the identifier is the primary key, so a
    duplicate is refused. *)
Definition create_document (file_info : FileInfo.t) : M PDFDocument.t :=
  d <- get_db ;;
  let new_id := generate_uuid E d in
  if existsb (has_id new_id) d
  then raise (IntegrityError (lit "duplicate key value: " ++ new_id))
  else
    let document :=
      PDFDocument.mk new_id (FileInfo.path file_info)
        (FileInfo.filename file_info) (utcnow E) [] [] [] in
    put_db (d ++ [document]) ;;;
    ret document.

(** Modelled from the spec: the write shared by the [save_*] operations of
    the missing [app/database/repository.py].  It rewrites the document
    named [document_id]; a row for an unknown document violates the
    foreign key. *)
Definition update_document (document_id : str)
    (f : PDFDocument.t -> PDFDocument.t) : M unit :=
  d <- get_db ;;
  if existsb (has_id document_id) d
  then put_db (map (fun doc => if has_id document_id doc then f doc else doc) d)
  else raise (IntegrityError (lit "unknown document: " ++ document_id)).

(** Modelled from the spec: how the missing [save_text_content] and
    [save_tables] get the 1-based page number of a row from the page
    label that keys the extracted mapping. *)
Definition parse_page_label (key : str) : option nat :=
  if startswith key (lit "Page ") then nat_of_str (skipn 5 key) else None.

(** Modelled from the spec: the TextPage rows of an extracted text
    mapping, one per page label, in the order of the mapping. *)
Fixpoint text_rows (pages : TextData) : result (list TextContent.t) :=
  match pages with
  | [] => Ok []
  | (key, content) :: rest =>
      match parse_page_label key with
      | None => Raise (ValueError (lit "invalid page label: " ++ key))
      | Some n =>
          match text_rows rest with
          | Ok rows => Ok (TextContent.mk n content :: rows)
          | Raise e => Raise e
          end
      end
  end.

(** Modelled from the spec: [PDFRepository.save_text_content] of the
    missing [app/database/repository.py]. *)
Definition save_text_content (document_id : str) (pages : TextData) : M unit :=
  rows <- lift (text_rows pages) ;;
  update_document document_id (fun doc =>
    PDFDocument.mk (PDFDocument.id doc) (PDFDocument.filename doc)
      (PDFDocument.original_filename doc) (PDFDocument.created_at doc)
      (PDFDocument.text_contents doc ++ rows)
      (PDFDocument.images doc) (PDFDocument.tables doc)).

(** Modelled from the spec: the Image row of one image descriptor
    ([img.dict()]): its page, index and file name. *)
Definition image_row (img : ImageLink.t) : Image.t :=
  Image.mk (ImageLink.page img) (ImageLink.index img) (ImageLink.filename img).

(** Modelled from the spec: [PDFRepository.save_images] of the missing
    [app/database/repository.py]. *)
Definition save_images (document_id : str) (imgs : list ImageLink.t) : M unit :=
  update_document document_id (fun doc =>
    PDFDocument.mk (PDFDocument.id doc) (PDFDocument.filename doc)
      (PDFDocument.original_filename doc) (PDFDocument.created_at doc)
      (PDFDocument.text_contents doc)
      (PDFDocument.images doc ++ map image_row imgs) (PDFDocument.tables doc)).

(** Modelled from the spec: the Table rows of one page, one per table,
    with the 0-based position of the table on the page and its serialized
    content ([enumerate(tables)] from index [i]). *)
Fixpoint page_table_rows (n : nat) (i : nat) (ts : list table) : list Table.t :=
  match ts with
  | [] => []
  | t :: rest => Table.mk n i (json_dumps E t) :: page_table_rows n (S i) rest
  end.

(** Modelled from the spec: the Table rows of an extracted table
    mapping. *)
Fixpoint table_rows (pages : TableData table) : result (list Table.t) :=
  match pages with
  | [] => Ok []
  | (key, ts) :: rest =>
      match parse_page_label key with
      | None => Raise (ValueError (lit "invalid page label: " ++ key))
      | Some n =>
          match table_rows rest with
          | Ok rows => Ok (page_table_rows n 0 ts ++ rows)
          | Raise e => Raise e
          end
      end
  end.

(** Modelled from the spec: [PDFRepository.save_tables] of the missing
    [app/database/repository.py]. *)
Definition save_tables (document_id : str) (pages : TableData table) : M unit :=
  rows <- lift (table_rows pages) ;;
  update_document document_id (fun doc =>
    PDFDocument.mk (PDFDocument.id doc) (PDFDocument.filename doc)
      (PDFDocument.original_filename doc) (PDFDocument.created_at doc)
      (PDFDocument.text_contents doc) (PDFDocument.images doc)
      (PDFDocument.tables doc ++ rows)).

(** Modelled from the spec: [PDFRepository.get_document_with_relations]
    of the missing [app/database/repository.py]: the document with that
    identifier and its rows, or nothing. *)
Definition get_document_with_relations (d : Database) (document_id : str)
    : option PDFDocument.t :=
  find (has_id document_id) d.

(* ------------------------------------------------------------------ *)
(** *** [app/utils/file_utils.py] *)

(** Modelled from the spec: [save_upload_file] of the missing
    [app/utils/file_utils.py]: a call that leaves the process and gives
    the saved file's name and path, or fails. *)
Definition save_upload_file (file : UploadFile.t) : M FileInfo.t :=
  log (EvSaveUpload (UploadFile.filename file)) ;;;
  lift (save_upload_file_io E file).

(* ------------------------------------------------------------------ *)
(** *** [LLMService] *)

Definition get_llm : M ChatModel :=
  cached <- get_cached_llm ;;
  match cached with
  | Some llm => ret llm
  | None =>
      let provider := lower (Settings.LLM_PROVIDER (settings E)) in
      if str_eqb provider (lit "ollama") then
        let llm := ChatOllama (Settings.OLLAMA_HOST (settings E))
                              (Settings.OLLAMA_MODEL (settings E)) in
        set_cached_llm llm ;;;
        ret llm
      else if str_eqb provider (lit "openrouter") then
        if negb (truthy (Settings.OPENROUTER_API_KEY (settings E))) then
          raise (ValueError
            (lit "OPENROUTER_API_KEY is required when using OpenRouter provider"))
        else
          let default_headers : PyDict.dict str := [] in
          let default_headers :=
            if truthy (Settings.OPENROUTER_SITE_URL (settings E))
            then PyDict.set default_headers (lit "HTTP-Referer")
                   (Settings.OPENROUTER_SITE_URL (settings E))
            else default_headers in
          let default_headers :=
            if truthy (Settings.OPENROUTER_SITE_NAME (settings E))
            then PyDict.set default_headers (lit "X-Title")
                   (Settings.OPENROUTER_SITE_NAME (settings E))
            else default_headers in
          let llm :=
            ChatOpenAI (Settings.OPENROUTER_API_KEY (settings E))
              (lit "https://openrouter.ai/api/v1")
              (Settings.OPENROUTER_MODEL (settings E))
              (match default_headers with
               | [] => None
               | _ :: _ => Some default_headers
               end) in
          set_cached_llm llm ;;;
          ret llm
      else
        raise (ValueError
          (lit "Unsupported LLM provider: " ++ provider
             ++ lit ". Supported providers: ollama, openrouter"))
  end.

(** [llm.invoke(messages)], giving [response.content]. *)
Definition invoke (llm : ChatModel) (messages : list Message) : M str :=
  log (EvLLMInvoke llm messages) ;;;
  lift (llm_invoke E llm messages).

Definition system_prompt : str :=
  lit "You are a helpful assistant that creates concise summaries of documents."
  ++ nl ++
  lit "Your task is to summarize the provided document content clearly and accurately."
  ++ nl ++
  lit "Focus on the main points, key information, and important details."
  ++ nl ++
  lit "Keep the summary informative but concise.".

(** The user prompt around the submitted document text. *)
Definition user_prompt (max_length : nat) (submitted : str) : str :=
  lit "Please summarize the following document content in approximately "
  ++ str_of_nat max_length ++ lit " words or less:" ++ nl ++ nl
  ++ lit "---" ++ nl ++ submitted ++ nl ++ lit "---" ++ nl ++ nl
  ++ lit "Provide a clear, structured summary that captures the essential information.".

(** The body of the [try] block of [summarize_text]. *)
Definition summarize_body (text : str) (max_length : nat) : M (option str) :=
  llm <- get_llm ;;
  let messages :=
    [SystemMessage system_prompt;
     HumanMessage (user_prompt max_length (slice_to 15000 text))] in
  content <- invoke llm messages ;;
  let summary := strip content in
  ret (Some summary).

Definition summarize_text (text : str) (max_length : nat) : M (option str) :=
  if negb (truthy text) || negb (truthy (strip text)) then ret None
  else try_except (summarize_body text max_length) (fun _ => ret None).

(* ------------------------------------------------------------------ *)
(** *** [PDFService] *)

(** The inner loop of [extract_text_and_images]: the images of page
    [page_num] (0-based), from [enumerate] index [img_index]. *)
Fixpoint images_loop (document_id : str) (page_num : nat)
    (imgs : list BaseImage.t) (img_index : nat)
    (image_links : list ImageLink.t) : M (list ImageLink.t) :=
  match imgs with
  | [] => ret image_links
  | base_image :: rest =>
      let image_bytes := BaseImage.image base_image in
      let image_ext := BaseImage.ext base_image in
      image <- lift (PILImage_open E image_bytes) ;;
      let image_filename :=
        image_filename_of document_id (page_num + 1) (img_index + 1) image_ext in
      write_image image_filename image ;;;
      images_loop document_id page_num rest (S img_index)
        (image_links ++
           [ImageLink.mk (get_image_url E image_filename) (page_num + 1)
              (img_index + 1) image_filename document_id])
  end.

(** The outer loop: pages from index [page_num]. *)
Fixpoint pages_loop (document_id : str) (pages : list FitzPage.t)
    (page_num : nat) (text_data : TextData) (image_links : list ImageLink.t)
    : M (TextData * list ImageLink.t) :=
  match pages with
  | [] => ret (text_data, image_links)
  | page :: rest =>
      let text_data :=
        PyDict.set text_data (page_label (page_num + 1)) (FitzPage.get_text page) in
      image_links <-
        images_loop document_id page_num (FitzPage.get_images page) 0 image_links ;;
      pages_loop document_id rest (S page_num) text_data image_links
  end.

Definition extract_text_and_images (file_info : FileInfo.t) (document_id : str)
    : M (TextData * list ImageLink.t) :=
  log (EvFitzOpen (FileInfo.path file_info)) ;;;
  doc <- lift (fitz_open E (FileInfo.path file_info)) ;;
  pages_loop document_id doc 0 [] [].

Fixpoint tables_loop (pages : list (list table)) (page_num : nat)
    (tables : TableData table) : TableData table :=
  match pages with
  | [] => tables
  | extracted_tables :: rest =>
      tables_loop rest (S page_num)
        (match extracted_tables with
         | [] => tables
         | _ :: _ => PyDict.set tables (page_label (page_num + 1)) extracted_tables
         end)
  end.

Definition extract_tables (file_info : FileInfo.t) : M (TableData table) :=
  log (EvPdfplumberOpen (FileInfo.path file_info)) ;;;
  pdf <- lift (pdfplumber_open E (FileInfo.path file_info)) ;;
  ret (tables_loop pdf 0 []).

(** [f"{page_name}:\n{content}"] for every item, joined by blank lines. *)
Definition full_text_of (text_data : TextData) : str :=
  join (nl ++ nl)
    (map (fun item => fst item ++ lit ":" ++ nl ++ snd item) text_data).

Definition generate_summary (text_data : TextData) : M (option str) :=
  try_except
    (let full_text := full_text_of text_data in
     if negb (truthy (strip full_text)) then ret None
     else summarize_text full_text 500)
    (fun _ => ret None).

Definition process_pdf (file_info : FileInfo.t) (include_summary : bool)
    : M (PDFExtractResponse.t table) :=
  document <- create_document file_info ;;
  let document_id := PDFDocument.id document in
  extracted <- extract_text_and_images file_info document_id ;;
  let text_data := fst extracted in
  let image_links := snd extracted in
  table_data <- extract_tables file_info ;;
  save_text_content document_id text_data ;;;
  save_images document_id image_links ;;;
  (match table_data with
   | [] => ret tt
   | _ :: _ => save_tables document_id table_data
   end) ;;;
  summary <- (if include_summary then generate_summary text_data else ret None) ;;
  ret (PDFExtractResponse.mk document_id (FileInfo.filename file_info)
         text_data table_data image_links summary
         (PDFDocument.created_at document)).

(** Reconstruction of the text mapping from the stored rows. *)
Definition text_pages_of (rows : list TextContent.t) : TextData :=
  fold_left
    (fun text_pages text =>
       PyDict.set text_pages (page_label (TextContent.page_number text))
         (TextContent.content text))
    rows [].

(** Reconstruction of the table mapping from the stored rows. *)
Fixpoint table_pages_of (rows : list Table.t) (table_pages : TableData table)
    : result (TableData table) :=
  match rows with
  | [] => Ok table_pages
  | row :: rest =>
      let page_key := page_label (Table.page_number row) in
      let table_pages :=
        if negb (PyDict.contains table_pages page_key)
        then PyDict.set table_pages page_key []
        else table_pages in
      match json_loads E (Table.table_data row) with
      | Raise e => Raise e
      | Ok table_data =>
          let current :=
            match PyDict.get table_pages page_key with
            | Some l => l
            | None => []
            end in
          table_pages_of rest
            (PyDict.set table_pages page_key (current ++ [table_data]))
      end
  end.

Definition image_link_of_row (document_id : str) (img : Image.t) : ImageLink.t :=
  ImageLink.mk (get_image_url E (Image.filename img)) (Image.page_number img)
    (Image.image_index img) (Image.filename img) document_id.

Definition get_pdf_by_id (document_id : str)
    : M (option (PDFExtractResponse.t table)) :=
  d <- get_db ;;
  match get_document_with_relations d document_id with
  | None => ret None
  | Some document =>
      let text_pages := text_pages_of (PDFDocument.text_contents document) in
      table_pages <- lift (table_pages_of (PDFDocument.tables document) []) ;;
      let image_links :=
        map (image_link_of_row document_id) (PDFDocument.images document) in
      ret (Some (PDFExtractResponse.mk document_id
                   (PDFDocument.original_filename document)
                   text_pages table_pages image_links None
                   (PDFDocument.created_at document)))
  end.

(* ------------------------------------------------------------------ *)
(** *** The [POST /extract] handler *)

Definition has_pdf_extension (filename : str) : bool :=
  endswith (lower filename) (lit ".pdf").

(** The body of the [try] block of [extract_pdf]. *)
Definition extract_body (file : UploadFile.t) (include_summary : bool)
    : M (PDFExtractResponse.t table) :=
  file_info <- save_upload_file file ;;
  result <- process_pdf file_info include_summary ;;
  if negb (truthy (PDFExtractResponse.id result)) then
    raise (HTTPException HTTP_500_INTERNAL_SERVER_ERROR
             (lit "Failed to generate document ID"))
  else ret result.

Definition extract_pdf (file : UploadFile.t) (include_summary : bool)
    : M (PDFExtractResponse.t table) :=
  if negb (has_pdf_extension (UploadFile.filename file)) then
    raise (HTTPException HTTP_400_BAD_REQUEST
             (lit "Only PDF files are supported."))
  else
    try_except (extract_body file include_summary)
      (fun e => raise (HTTPException HTTP_400_BAD_REQUEST
                         (lit "Error processing PDF: " ++ exn_str e))).

(* ------------------------------------------------------------------ *)
(** *** The rest of [LLMService] *)

(** [LLMService.reset_llm] *)
Definition reset_llm : M unit :=
  fun w => (Ok tt, World.mk (World.db w) (World.image_folder w) None
                            (World.trace w)).

(** [LLMService.is_available].  A handle [get_llm] returns is never
    [None], so [llm is not None] is [True]. *)
Definition is_available : M bool :=
  try_except (llm <- get_llm ;; ret true) (fun _ => ret false).

(* ------------------------------------------------------------------ *)
(** *** The other handlers *)

(** [GET /documents/{document_id}].  A response model is always truthy,
    so [not result] holds for [None] only. *)
Definition get_pdf_document (document_id : str)
    : M (PDFExtractResponse.t table) :=
  result <- get_pdf_by_id document_id ;;
  match result with
  | None =>
      raise (HTTPException HTTP_404_NOT_FOUND
               (lit "Document with ID " ++ document_id ++ lit " not found"))
  | Some r => ret r
  end.

(** The file stored under a name in the image folder; a file written
    again under the same name replaces the earlier one. *)
Definition read_image (folder : list (str * bytes)) (filename : str)
    : option bytes :=
  option_map snd (find (fun entry => str_eqb (fst entry) filename) (rev folder)).

(** [GET /images/{filename}]: the content of the [FileResponse].  The
    image folder is looked up by the name of an entry; a [filename] that
    is empty, a dot name or a path is outside this model. *)
Definition download_image (filename : str) : M bytes :=
  fun w =>
    match read_image (World.image_folder w) filename with
    | None =>
        (Raise (HTTPException HTTP_404_NOT_FOUND
                  (lit "Image not found: " ++ filename)), w)
    | Some data => (Ok data, w)
    end.

(** [GET /llm/status] of [app/controllers/worker_controller.py]: the
    values under ["llm_service"]. *)
Definition get_llm_status : M LLMStatus.t :=
  available <- is_available ;;
  let is_ollama :=
    str_eqb (lower (Settings.LLM_PROVIDER (settings E))) (lit "ollama") in
  ret (LLMStatus.mk available (Settings.LLM_PROVIDER (settings E))
         (if is_ollama then Settings.OLLAMA_MODEL (settings E)
          else Settings.OPENROUTER_MODEL (settings E))
         (if is_ollama then Settings.OLLAMA_HOST (settings E)
          else lit "https://openrouter.ai/api/v1")).

End Services.

(* ================================================================== *)
(** ** A concrete installation, for running the model

    A two-page PDF with one image on its second page and one table on its
    first, an LLM backend that answers, one that is unreachable, and a
    storage layer whose identifier generator is broken. *)

Module Demo.

(** Tables are kept as their JSON text. *)
Definition table : Type := str.

Definition settings : Settings.t :=
  Settings.mk (lit "/api/v1") (lit "Ollama") (lit "http://localhost:11434")
    (lit "llama3.2") [] (lit "meta-llama/llama-3.1-8b-instruct:free") []
    (lit "PDF Extractor API") (lit "uploads/images").

Definition page1 : FitzPage.t := FitzPage.mk (lit "Hello") [].

Definition page2 : FitzPage.t :=
  FitzPage.mk (lit "World") [BaseImage.mk [137; 80; 78; 71]%N (lit "png")].

Definition pdf_path : str := lit "uploads/pdfs/a.pdf".

Definition fitz_open (path : str) : result (list FitzPage.t) :=
  if str_eqb path pdf_path then Ok [page1; page2]
  else Raise (EngineError (lit "cannot open file")).

Definition pdfplumber_open (path : str) : result (list (list table)) :=
  if str_eqb path pdf_path then Ok [[lit "[[1]]"]; []]
  else Raise (EngineError (lit "cannot open file")).

Definition save_upload_file_io (file : UploadFile.t) : result FileInfo.t :=
  Ok (FileInfo.mk (UploadFile.filename file)
        (lit "uploads/pdfs/" ++ UploadFile.filename file)).

Definition generate_uuid (d : Database) : str :=
  lit "doc-" ++ str_of_nat (length d).

Definition get_image_url (filename : str) : str :=
  lit "/api/v1/images/" ++ filename.

Definition answering (llm : ChatModel) (messages : list Message) : result str :=
  Ok (lit " A greeting. ").

Definition unreachable (llm : ChatModel) (messages : list Message) : result str :=
  Raise (EngineError (lit "connection refused")).

Definition engines : Engines table :=
  Build_Engines settings fitz_open (fun b => Ok b) pdfplumber_open
    (fun t => t) (fun s => Ok s) answering get_image_url
    save_upload_file_io generate_uuid 1700000000%N.

Definition offline : Engines table :=
  Build_Engines settings fitz_open (fun b => Ok b) pdfplumber_open
    (fun t => t) (fun s => Ok s) unreachable get_image_url
    save_upload_file_io generate_uuid 1700000000%N.

Definition no_ids : Engines table :=
  Build_Engines settings fitz_open (fun b => Ok b) pdfplumber_open
    (fun t => t) (fun s => Ok s) answering get_image_url
    save_upload_file_io (fun _ => []) 1700000000%N.

Definition empty_world : World.t := World.mk [] [] None [].

Definition upload : UploadFile.t := UploadFile.mk (lit "a.pdf") [37; 80; 68; 70]%N.

Definition file_info : FileInfo.t := FileInfo.mk (lit "a.pdf") pdf_path.

Definition no_response : PDFExtractResponse.t table :=
  PDFExtractResponse.mk [] [] [] [] [] None 0%N.

(** Processing the PDF in the empty world, with a summary. *)
Definition response : PDFExtractResponse.t table :=
  Eval vm_compute in
    match fst (process_pdf engines file_info true empty_world) with
    | Ok r => r
    | Raise _ => no_response
    end.

Definition world_after : World.t :=
  Eval vm_compute in snd (process_pdf engines file_info true empty_world).

(** Processing it a second time, in the world the first run left. *)
Definition response2 : PDFExtractResponse.t table :=
  Eval vm_compute in
    match fst (process_pdf engines file_info false world_after) with
    | Ok r => r
    | Raise _ => no_response
    end.

Definition world_after2 : World.t :=
  Eval vm_compute in snd (process_pdf engines file_info false world_after).

(** Processing it while the LLM backend is unreachable. *)
Definition response_offline : PDFExtractResponse.t table :=
  Eval vm_compute in
    match fst (process_pdf offline file_info false empty_world) with
    | Ok r => r
    | Raise _ => no_response
    end.

Definition world_offline : World.t :=
  Eval vm_compute in snd (process_pdf offline file_info false empty_world).

(** The image link of the first run and the image link of the second. *)
Definition link : ImageLink.t :=
  ImageLink.mk (lit "/api/v1/images/doc-0_page_2_image_1.png") 2 1
    (lit "doc-0_page_2_image_1.png") (lit "doc-0").

Definition link2 : ImageLink.t :=
  ImageLink.mk (lit "/api/v1/images/doc-1_page_2_image_1.png") 2 1
    (lit "doc-1_page_2_image_1.png") (lit "doc-1").

(** A text of 15,001 letters. *)
Definition long_text : str := repeat 97%N (N.to_nat 15001).

Definition notes : UploadFile.t := UploadFile.mk (lit "notes.txt") [104; 105]%N.

(** Reading the first document back. *)
Definition retrieved : PDFExtractResponse.t table :=
  Eval vm_compute in
    match fst (get_pdf_by_id engines (lit "doc-0") world_after) with
    | Ok (Some r) => r
    | _ => no_response
    end.

(** The handle [get_llm] builds from [settings]. *)
Definition llm : ChatModel :=
  ChatOllama (lit "http://localhost:11434") (lit "llama3.2").

Definition world_with_llm : World.t := World.mk [] [] (Some llm) [].

(** The same installation after the configuration was changed to a
    provider the service does not know. *)
Definition bogus_settings : Settings.t :=
  Settings.mk (lit "/api/v1") (lit "Bedrock") (lit "http://localhost:11434")
    (lit "llama3.2") [] (lit "meta-llama/llama-3.1-8b-instruct:free") []
    (lit "PDF Extractor API") (lit "uploads/images").

Definition misconfigured : Engines table :=
  Build_Engines bogus_settings fitz_open (fun b => Ok b) pdfplumber_open
    (fun t => t) (fun s => Ok s) answering get_image_url
    save_upload_file_io generate_uuid 1700000000%N.

(** A world whose cached handle is left from an earlier configuration. *)
Definition stale_world : World.t :=
  World.mk [] []
    (Some (ChatOpenAI (lit "sk-old") (lit "https://openrouter.ai/api/v1")
             (lit "old-model") None))
    [].

(** What the PDF engine of [broken] raises. *)
Definition cannot_open : exn := EngineError (lit "cannot open broken document").

(** A backend that answers with white space only. *)
Definition mumbling (llm : ChatModel) (messages : list Message) : result str :=
  Ok (lit "  ").

Definition mumbler : Engines table :=
  Build_Engines settings fitz_open (fun b => Ok b) pdfplumber_open
    (fun t => t) (fun s => Ok s) mumbling get_image_url
    save_upload_file_io generate_uuid 1700000000%N.

(** A PDF engine that cannot open the file. *)
Definition broken : Engines table :=
  Build_Engines settings
    (fun _ => Raise (EngineError (lit "cannot open broken document")))
    (fun b => Ok b) pdfplumber_open
    (fun t => t) (fun s => Ok s) answering get_image_url
    save_upload_file_io generate_uuid 1700000000%N.

End Demo.

(* ================================================================== *)
(** ** Vocabulary of the properties *)

(** A computation that never raises. *)
Definition total {A} (m : M A) : Prop :=
  forall w, exists a w', m w = (Ok a, w').

(** A computation that leaves one component of the world as it is,
    whatever it returns. *)
Definition keeps {A X} (part : World.t -> X) (m : M A) : Prop :=
  forall w, part (snd (m w)) = part w.

(** A text that is empty or white space only. *)
Definition blank (text : str) : Prop := Forall (fun c => isspace c = true) text.

(** [len(text)] as an unbounded number. *)
Definition len (text : str) : N := N.of_nat (length text).

(** The image links [extract_text_and_images] builds for the images of
    page [page_num] (0-based) from [enumerate] index [img_index] on, and
    for the pages of a document from page [page_num] on. *)
Fixpoint page_links {table} (E : Engines table) (document_id : str)
    (page_num : nat) (imgs : list BaseImage.t) (img_index : nat)
    : list ImageLink.t :=
  match imgs with
  | [] => []
  | base_image :: rest =>
      let name :=
        image_filename_of document_id (page_num + 1) (img_index + 1)
          (BaseImage.ext base_image) in
      ImageLink.mk (get_image_url E name) (page_num + 1) (img_index + 1)
        name document_id
      :: page_links E document_id page_num rest (S img_index)
  end.

Fixpoint doc_links {table} (E : Engines table) (document_id : str)
    (pages : list FitzPage.t) (page_num : nat) : list ImageLink.t :=
  match pages with
  | [] => []
  | page :: rest =>
      page_links E document_id page_num (FitzPage.get_images page) 0
      ++ doc_links E document_id rest (S page_num)
  end.

(** The text mapping after the pages from index [page_num] on. *)
Fixpoint text_fold (pages : list FitzPage.t) (page_num : nat) (text_data : TextData)
    : TextData :=
  match pages with
  | [] => text_data
  | page :: rest =>
      text_fold rest (S page_num)
        (PyDict.set text_data (page_label (page_num + 1)) (FitzPage.get_text page))
  end.

(** Keys that are page labels of pages up to [k]. *)
Definition labels_upto {V} (k : nat) (d : PyDict.dict V) : Prop :=
  forall key, In key (PyDict.keys d) -> exists j, j <= k /\ key = page_label j.

(** The pages that have tables, from page index [page_num] on, each with
    its 1-based page number. *)
Fixpoint table_items {table} (page_num : nat) (pages : list (list table))
    : list (nat * list table) :=
  match pages with
  | [] => []
  | extracted_tables :: rest =>
      match extracted_tables with
      | [] => table_items (S page_num) rest
      | _ :: _ => (page_num + 1, extracted_tables) :: table_items (S page_num) rest
      end
  end.

(** A page-keyed mapping from numbered items. *)
Definition label_items {V} (items : list (nat * V)) : PyDict.dict V :=
  map (fun item => (page_label (fst item), snd item)) items.

(** Items in ascending page order above page [k], none of them empty. *)
Fixpoint items_above {V} (k : nat) (items : list (nat * list V)) : Prop :=
  match items with
  | [] => True
  | (n, ts) :: rest => k < n /\ ts <> [] /\ items_above n rest
  end.

(** The labels ["Page a+1"], ..., ["Page a+n"]. *)
Definition page_labels (a n : nat) : list str := map page_label (seq (a + 1) n).

(** Page [page] (1-based) of the PDF has an image at position [index]
    (1-based) whose extension is [image_ext]. *)
Definition image_at (pages : list FitzPage.t) (page index : nat)
    (image_ext : str) : Prop :=
  exists pg img,
    nth_error pages (page - 1) = Some pg /\ 1 <= page /\
    nth_error (FitzPage.get_images pg) (index - 1) = Some img /\ 1 <= index /\
    BaseImage.ext img = image_ext.

(** No image of the PDF has a dot in the extension the engine reports. *)
Definition plain_extensions (pages : list FitzPage.t) : Prop :=
  forall pg img,
    In pg pages -> In img (FitzPage.get_images pg) ->
    ~ In 46%N (BaseImage.ext img).

(** Code point [c] is [x] or the ASCII capital of [x]. *)
Definition same_letter (c x : char) : bool :=
  ((c =? x) || (c + 32 =? x) && (65 <=? c) && (c <=? 90))%N.

(** The file name ends in a dot and the letters p, d, f, in either case. *)
Definition named_pdf (filename : str) : Prop :=
  exists stem a b c,
    filename = stem ++ [46; a; b; c]%N /\
    (a = 112 \/ a = 80)%N /\ (b = 100 \/ b = 68)%N /\ (c = 102 \/ c = 70)%N.

(** A computation that keeps an invariant of the world, whatever it
    returns. *)
Definition preserves {A} (P : World.t -> Prop) (m : M A) : Prop :=
  forall w, P w -> P (snd (m w)).

(** Every step of a computation is in a relation between worlds. *)
Definition steps {A} (R : World.t -> World.t -> Prop) (m : M A) : Prop :=
  forall w, R w (snd (m w)).

(** The world moved on without the LLM: the cached handle is the same and
    no backend call was added to the trace. *)
Definition is_llm_call (ev : event) : bool :=
  match ev with
  | EvLLMInvoke _ _ => true
  | _ => false
  end.

Definition without_llm (w w' : World.t) : Prop :=
  World._llm w' = World._llm w /\
  exists added,
    World.trace w' = World.trace w ++ added /\
    forallb (fun ev => negb (is_llm_call ev)) added = true.

(** The database holds the documents [d0], unchanged and in place,
    followed by at most one more. *)
Definition extends_db (d0 : Database) (new_id : str) (w : World.t) : Prop :=
  World.db w = d0 \/
  exists doc, World.db w = d0 ++ [doc] /\ PDFDocument.id doc = new_id.

(** A file name that names an entry of the folder it is joined to: not
    empty, not one of the two dot names, and without a slash. *)
Definition plain_name (filename : str) : Prop :=
  filename <> [] /\ filename <> lit "." /\ filename <> lit ".." /\
  ~ In 47%N filename.

(** Every file written to the image folder on the way from [w] to [w']
    carries a name of the format of [image_filename_of] for the document
    [document_id]. *)
Definition writes_named (document_id : str) (w w' : World.t) : Prop :=
  exists added,
    World.image_folder w' = World.image_folder w ++ added /\
    Forall (fun entry =>
              exists page index image_ext,
                fst entry = image_filename_of document_id page index image_ext)
           added.

(** The number of tables in a table mapping. *)
Definition total_tables {table} (d : TableData table) : nat :=
  list_sum (map (fun item => length (snd item)) d).

(* ================================================================== *)
(** ** Facts about strings *)

Module PyStrFacts.

Lemma str_eqb_eq (a b : str) : str_eqb a b = true <-> a = b.
Proof.
  revert b; induction a as [|x a IH]; intros [|y b]; simpl; split;
    try congruence; try reflexivity.
  - intros H. apply andb_true_iff in H as [Hx Hr].
    apply N.eqb_eq in Hx. apply IH in Hr. congruence.
  - intros H. inversion H; subst. apply andb_true_iff. split.
    + apply N.eqb_refl.
    + now apply IH.
Qed.

Lemma str_eqb_refl (a : str) : str_eqb a a = true.
Proof. now apply str_eqb_eq. Qed.

Lemma str_eqb_neq (a b : str) : str_eqb a b = false <-> a <> b.
Proof.
  split.
  - intros H Heq. apply str_eqb_eq in Heq. congruence.
  - intros H. destruct (str_eqb a b) eqn:Heq; [|reflexivity].
    apply str_eqb_eq in Heq. contradiction.
Qed.

Lemma startswith_app (p s : str) : startswith (p ++ s) p = true.
Proof.
  induction p as [|c p IH]; simpl; [reflexivity|].
  unfold char_eqb. now rewrite N.eqb_refl.
Qed.

(** Reading the digits of a decimal number gives the number back. *)
Lemma chars_uint_chars (d : Decimal.uint) : chars_uint (uint_chars d) = Some d.
Proof. induction d; simpl; try rewrite IHd; reflexivity. Qed.

Lemma uint_chars_digits (d : Decimal.uint) : Forall (fun c => is_digit c = true) (uint_chars d).
Proof. induction d; simpl; constructor; auto. Qed.

Lemma to_uint_not_nil (n : nat) : Nat.to_uint n <> Decimal.Nil.
Proof.
  intros H.
  assert (Hn : n = 0) by (rewrite <- (DecimalNat.Unsigned.of_to n), H; reflexivity).
  subst n. discriminate H.
Qed.

Lemma nat_of_str_of_nat (n : nat) : nat_of_str (str_of_nat n) = Some n.
Proof.
  unfold nat_of_str, str_of_nat.
  destruct (uint_chars (Nat.to_uint n)) eqn:Hc.
  - destruct (Nat.to_uint n) eqn:Hu; try discriminate Hc.
    now apply to_uint_not_nil in Hu.
  - rewrite <- Hc, chars_uint_chars. simpl.
    now rewrite DecimalNat.Unsigned.of_to.
Qed.

Lemma str_of_nat_inj (n m : nat) : str_of_nat n = str_of_nat m -> n = m.
Proof.
  intros H. apply (f_equal nat_of_str) in H.
  rewrite !nat_of_str_of_nat in H. congruence.
Qed.

Lemma str_of_nat_digits (n : nat) : Forall (fun c => is_digit c = true) (str_of_nat n).
Proof. apply uint_chars_digits. Qed.

Lemma parse_page_label_label (n : nat) : parse_page_label (page_label n) = Some n.
Proof.
  unfold parse_page_label, page_label.
  rewrite startswith_app. simpl skipn. apply nat_of_str_of_nat.
Qed.

Lemma page_label_inj (n m : nat) : page_label n = page_label m -> n = m.
Proof.
  intros H. apply (f_equal parse_page_label) in H.
  rewrite !parse_page_label_label in H. congruence.
Qed.

Lemma page_label_eqb (n m : nat) : str_eqb (page_label n) (page_label m) = Nat.eqb n m.
Proof.
  destruct (Nat.eqb n m) eqn:Hnm.
  - apply Nat.eqb_eq in Hnm. subst. apply str_eqb_refl.
  - apply str_eqb_neq. intros H. apply page_label_inj in H.
    apply Nat.eqb_neq in Hnm. contradiction.
Qed.

(** Slicing keeps a prefix: all of a short text, the first [k] code points
    of a long one. *)
Lemma slice_to_firstn (k : N) (s : str) : slice_to k s = firstn (N.to_nat k) s.
Proof.
  revert k; induction s as [|c s IH]; intros k; simpl.
  - now rewrite firstn_nil.
  - destruct (N.eqb_spec k 0) as [->|Hk]; [reflexivity|].
    rewrite IH. replace (N.to_nat k) with (S (N.to_nat (N.pred k))) by lia.
    reflexivity.
Qed.

Lemma slice_to_short (k : N) (s : str) :
  (N.of_nat (length s) <= k)%N -> slice_to k s = s.
Proof.
  intros H. rewrite slice_to_firstn. apply firstn_all2. lia.
Qed.

Lemma slice_to_long (k : N) (s : str) :
  (k < N.of_nat (length s))%N ->
  N.of_nat (length (slice_to k s)) = k /\
  exists rest, rest <> [] /\ s = slice_to k s ++ rest.
Proof.
  intros H. rewrite slice_to_firstn. split.
  - rewrite length_firstn. lia.
  - exists (skipn (N.to_nat k) s). split.
    + intros Hnil. apply (f_equal (@length _)) in Hnil.
      rewrite length_skipn in Hnil. simpl in Hnil. lia.
    + now rewrite firstn_skipn.
Qed.

(** A text of 15,001 letters is cut to its first 15,000. *)
Example slice_to_cuts_long_text :
  slice_to 15000 (repeat 97%N (N.to_nat 15001)) = repeat 97%N (N.to_nat 15000).
Proof. vm_compute. reflexivity. Qed.

(** A string of white space strips to nothing. *)
Lemma lstrip_all_space (s : str) :
  Forall (fun c => isspace c = true) s -> lstrip s = [].
Proof.
  induction 1 as [|c s Hc _ IH]; simpl; [reflexivity|]. now rewrite Hc.
Qed.

Lemma lstrip_nil_all_space (s : str) :
  lstrip s = [] -> Forall (fun c => isspace c = true) s.
Proof.
  induction s as [|c s IH]; simpl; [constructor|].
  destruct (isspace c) eqn:Hc; [|discriminate].
  intros H. constructor; auto.
Qed.

Lemma strip_nil_iff (s : str) :
  strip s = [] <-> Forall (fun c => isspace c = true) s.
Proof.
  unfold strip, rstrip. split.
  - intros H.
    assert (Hl : lstrip (rev (lstrip s)) = []).
    { apply (f_equal (@rev _)) in H. now rewrite rev_involutive in H. }
    apply lstrip_nil_all_space in Hl.
    assert (Hs : lstrip s = []).
    { destruct (lstrip s) as [|c r] eqn:Hls; [reflexivity|].
      exfalso. apply Forall_rev in Hl. rewrite rev_involutive in Hl.
      inversion Hl as [|? ? Hc _]; subst.
      clear - Hls Hc. induction s as [|d s IH]; simpl in Hls; [discriminate|].
      destruct (isspace d) eqn:Hd; [auto|]. inversion Hls; subst. congruence. }
    now apply lstrip_nil_all_space.
  - intros H. rewrite (lstrip_all_space H). reflexivity.
Qed.

(** Splitting at the first occurrence of a separator is unambiguous. *)
Lemma split_at_first (c : char) (a1 a2 r1 r2 : str) :
  ~ In c a1 -> ~ In c a2 ->
  a1 ++ c :: r1 = a2 ++ c :: r2 -> a1 = a2 /\ r1 = r2.
Proof.
  revert a2; induction a1 as [|x a1 IH]; intros [|y a2] H1 H2 Heq; simpl in *.
  - inversion Heq; auto.
  - inversion Heq; subst. exfalso. apply H2. now left.
  - inversion Heq; subst. exfalso. apply H1. now left.
  - inversion Heq; subst.
    destruct (IH a2) as [-> ->]; auto.
Qed.

Lemma digits_no_char (c : char) (s : str) :
  is_digit c = false -> Forall (fun d => is_digit d = true) s -> ~ In c s.
Proof.
  intros Hc Hs Hin. rewrite Forall_forall in Hs. apply Hs in Hin. congruence.
Qed.

End PyStrFacts.
Import PyStrFacts.

(* ================================================================== *)
(** ** Facts about dicts *)

Module PyDictFacts.
Section Facts.
Variable V : Type.
Implicit Types (d : PyDict.dict V) (k : str) (v : V).

Lemma contains_app d d' k :
  PyDict.contains (d ++ d') k = PyDict.contains d k || PyDict.contains d' k.
Proof.
  induction d as [|[k0 v0] d IH]; simpl; [reflexivity|].
  now rewrite IH, orb_assoc.
Qed.

(** Assigning to a key the dict does not have appends the item. *)
Lemma set_fresh d k v :
  PyDict.contains d k = false -> PyDict.set d k v = d ++ [(k, v)].
Proof.
  induction d as [|[k0 v0] d IH]; simpl; [reflexivity|].
  intros H. apply orb_false_iff in H as [Hk Hd].
  now rewrite Hk, IH.
Qed.

(** Assigning to the key of the last item replaces its value. *)
Lemma set_last d k v v' :
  PyDict.contains d k = false ->
  PyDict.set (d ++ [(k, v)]) k v' = d ++ [(k, v')].
Proof.
  induction d as [|[k0 v0] d IH]; simpl.
  - now rewrite str_eqb_refl.
  - intros H. apply orb_false_iff in H as [Hk Hd].
    now rewrite Hk, IH.
Qed.

Lemma get_last d k v :
  PyDict.contains d k = false -> PyDict.get (d ++ [(k, v)]) k = Some v.
Proof.
  induction d as [|[k0 v0] d IH]; simpl.
  - now rewrite str_eqb_refl.
  - intros H. apply orb_false_iff in H as [Hk Hd].
    now rewrite Hk, IH.
Qed.

Lemma contains_last d k v : PyDict.contains (d ++ [(k, v)]) k = true.
Proof.
  rewrite contains_app. simpl. rewrite str_eqb_refl.
  now rewrite orb_true_r.
Qed.

End Facts.
End PyDictFacts.
Import PyDictFacts.

(* ================================================================== *)
(** ** Facts about the state and exception monad *)

Lemma bind_ok {A B} (m : M A) (k : A -> M B) (w w' : World.t) (b : B) :
  bind m k w = (Ok b, w') ->
  exists a w1, m w = (Ok a, w1) /\ k a w1 = (Ok b, w').
Proof.
  unfold bind. destruct (m w) as [[a|e] w1]; intros H; [eauto|discriminate].
Qed.

Lemma bind_raise {A B} (m : M A) (k : A -> M B) (w w' : World.t) (e : exn) :
  bind m k w = (Raise e, w') ->
  m w = (Raise e, w') \/
  exists a w1, m w = (Ok a, w1) /\ k a w1 = (Raise e, w').
Proof.
  unfold bind. destruct (m w) as [[a|e0] w1]; intros H; [eauto|left; congruence].
Qed.

Lemma try_except_total {A} (m : M A) (h : exn -> M A) :
  (forall e, total (h e)) -> total (try_except m h).
Proof.
  intros Hh w. unfold try_except.
  destruct (m w) as [[a|e] w1]; [eauto|apply Hh].
Qed.

Section Keeps.
Variables (X : Type) (part : World.t -> X).

Lemma keeps_ret {A} (a : A) : keeps part (ret a).
Proof. intros w; reflexivity. Qed.

Lemma keeps_raise {A} (e : exn) : keeps part (@raise A e).
Proof. intros w; reflexivity. Qed.

Lemma keeps_lift {A} (r : result A) : keeps part (lift r).
Proof. intros w; reflexivity. Qed.

Lemma keeps_bind {A B} (m : M A) (k : A -> M B) :
  keeps part m -> (forall a, keeps part (k a)) -> keeps part (bind m k).
Proof.
  intros Hm Hk w. unfold bind. specialize (Hm w).
  destruct (m w) as [[a|e] w1]; simpl in *; [|assumption].
  now rewrite Hk.
Qed.

Lemma keeps_try {A} (m : M A) (h : exn -> M A) :
  keeps part m -> (forall e, keeps part (h e)) -> keeps part (try_except m h).
Proof.
  intros Hm Hh w. unfold try_except. specialize (Hm w).
  destruct (m w) as [[a|e] w1]; simpl in *; [assumption|].
  now rewrite Hh.
Qed.

End Keeps.

Lemma keeps_db_log (ev : event) : keeps World.db (log ev).
Proof. intros w; reflexivity. Qed.

Lemma keeps_db_write_image (name : str) (data : bytes) :
  keeps World.db (write_image name data).
Proof. intros w; reflexivity. Qed.

Lemma keeps_db_llm_cache : keeps World.db get_cached_llm.
Proof. intros w; reflexivity. Qed.

Lemma keeps_db_set_llm (m : ChatModel) : keeps World.db (set_cached_llm m).
Proof. intros w; reflexivity. Qed.

Lemma keeps_images_log (ev : event) : keeps World.image_folder (log ev).
Proof. intros w; reflexivity. Qed.

Lemma keeps_images_get_db : keeps World.image_folder get_db.
Proof. intros w; reflexivity. Qed.

Lemma keeps_images_put_db (d : Database) : keeps World.image_folder (put_db d).
Proof. intros w; reflexivity. Qed.

Lemma keeps_images_llm_cache : keeps World.image_folder get_cached_llm.
Proof. intros w; reflexivity. Qed.

Lemma keeps_images_set_llm (m : ChatModel) :
  keeps World.image_folder (set_cached_llm m).
Proof. intros w; reflexivity. Qed.

Create HintDb keeps.
#[local] Hint Resolve keeps_ret keeps_raise keeps_lift keeps_bind keeps_try
  keeps_db_log keeps_db_write_image keeps_db_llm_cache keeps_db_set_llm
  keeps_images_log keeps_images_get_db keeps_images_put_db
  keeps_images_llm_cache keeps_images_set_llm : keeps.

Lemma bind_step {A B} (m : M A) (k : A -> M B) (w w1 : World.t) (a : A) :
  m w = (Ok a, w1) -> bind m k w = k a w1.
Proof. unfold bind. now intros ->. Qed.

Lemma bind_fail {A B} (m : M A) (k : A -> M B) (w w1 : World.t) (e : exn) :
  m w = (Raise e, w1) -> bind m k w = (Raise e, w1).
Proof. unfold bind. now intros ->. Qed.

(** Split a successful sequence into its first step and the rest. *)
Tactic Notation "bind_inv" hyp(H) :=
  let a := fresh "a" in
  let w := fresh "w" in
  let H1 := fresh "Hstep" in
  apply bind_ok in H as (a & w & H1 & H).

Tactic Notation "bind_inv" hyp(H) "as" ident(a) ident(w) ident(H1) :=
  apply bind_ok in H as (a & w & H1 & H).

(* ================================================================== *)
(** ** The summarization adapter *)

Section LLMFacts.
Variable table : Type.
Variable E : Engines table.

Lemma get_llm_keeps {X} (part : World.t -> X) :
  keeps part get_cached_llm -> (forall m, keeps part (set_cached_llm m)) ->
  keeps part (get_llm E).
Proof.
  intros Hget Hset. unfold get_llm. apply keeps_bind; [assumption|].
  intros [llm|]; [apply keeps_ret|].
  destruct (str_eqb _ (lit "ollama")).
  { apply keeps_bind; [apply Hset|intros; apply keeps_ret]. }
  destruct (str_eqb _ (lit "openrouter")); [|apply keeps_raise].
  destruct (negb _); [apply keeps_raise|].
  apply keeps_bind; [apply Hset|intros; apply keeps_ret].
Qed.

Lemma keeps_db_get_llm : keeps World.db (get_llm E).
Proof. apply get_llm_keeps; auto with keeps. Qed.

Lemma keeps_images_get_llm : keeps World.image_folder (get_llm E).
Proof. apply get_llm_keeps; auto with keeps. Qed.

Lemma keeps_trace_get_llm : keeps World.trace (get_llm E).
Proof. apply get_llm_keeps; intros; intros w; reflexivity. Qed.

Lemma keeps_db_summarize_text (text : str) (max_length : nat) :
  keeps World.db (summarize_text E text max_length).
Proof.
  unfold summarize_text, summarize_body, invoke.
  destruct (_ || _); auto 10 using keeps_db_get_llm with keeps.
Qed.

Lemma keeps_images_summarize_text (text : str) (max_length : nat) :
  keeps World.image_folder (summarize_text E text max_length).
Proof.
  unfold summarize_text, summarize_body, invoke.
  destruct (_ || _); auto 10 using keeps_images_get_llm with keeps.
Qed.

Lemma summarize_text_total (text : str) (max_length : nat) :
  total (summarize_text E text max_length).
Proof.
  unfold summarize_text. destruct (_ || _).
  - intros w. now exists None, w.
  - apply try_except_total. intros e w. now exists None, w.
Qed.

Lemma blank_test (text : str) :
  negb (truthy text) || negb (truthy (strip text)) = true <-> blank text.
Proof.
  unfold blank. rewrite <- strip_nil_iff. split.
  - intros H. apply orb_true_iff in H as [H|H].
    + destruct text; [reflexivity|discriminate].
    + destruct (strip text); [reflexivity|discriminate].
  - intros ->. apply orb_true_r.
Qed.

(** C8.  A text that is empty or white space only is answered with no
    summary, and the world is left exactly as it was: the cached backend
    handle is not built and no call to the backend is recorded. *)
Theorem summarize_blank_skips_backend (text : str) (max_length : nat) (w : World.t) :
  blank text ->
  summarize_text E text max_length w = (Ok None, w).
Proof.
  intros H. apply blank_test in H. unfold summarize_text. now rewrite H.
Qed.

(** C7.  When a text that is not blank reaches the backend, exactly one
    call is made.  Its human message is the request to summarize, the
    submitted document text between two lines of three dashes, and the
    closing instruction; the submitted text is the first 15,000 characters
    of a longer text and the whole of a text of at most 15,000
    characters. *)
Theorem summarize_submits_truncated (text : str) (max_length : nat)
    (w w1 : World.t) (llm : ChatModel) :
  ~ blank text ->
  get_llm E w = (Ok llm, w1) ->
  exists submitted,
    World.trace (snd (summarize_text E text max_length w)) =
      World.trace w ++
        [EvLLMInvoke llm
           [SystemMessage
              (lit "You are a helpful assistant that creates concise summaries of documents."
               ++ [10%N] ++
               lit "Your task is to summarize the provided document content clearly and accurately."
               ++ [10%N] ++
               lit "Focus on the main points, key information, and important details."
               ++ [10%N] ++
               lit "Keep the summary informative but concise.");
            HumanMessage
              (lit "Please summarize the following document content in approximately "
               ++ str_of_nat max_length ++ lit " words or less:"
               ++ [10; 10]%N ++ lit "---" ++ [10%N]
               ++ submitted
               ++ [10%N] ++ lit "---" ++ [10; 10]%N
               ++ lit "Provide a clear, structured summary that captures the essential information.")]] /\
    ((15000 < len text)%N ->
       submitted = firstn (N.to_nat 15000) text /\ len submitted = 15000%N) /\
    ((len text <= 15000)%N -> submitted = text).
Proof.
  intros Hb Hllm. exists (slice_to 15000 text). split; [|split].
  - change (World.trace (snd (summarize_text E text max_length w)) =
            World.trace w ++
              [EvLLMInvoke llm
                 [SystemMessage system_prompt;
                  HumanMessage (user_prompt max_length (slice_to 15000 text))]]).
    unfold summarize_text.
    destruct (negb (truthy text) || negb (truthy (strip text))) eqn:Ht.
    + apply blank_test in Ht. contradiction.
    + pose proof (keeps_trace_get_llm w) as Htr. rewrite Hllm in Htr.
      unfold try_except, summarize_body, invoke.
      erewrite bind_step by exact Hllm. unfold bind, log, lift. simpl in Htr.
      destruct (llm_invoke E _ _); simpl; now rewrite Htr.
  - intros Hlen. split.
    + apply slice_to_firstn.
    + unfold len in *. now destruct (@slice_to_long 15000%N text Hlen).
  - intros Hlen. unfold len in Hlen. now apply slice_to_short.
Qed.

(** Whatever the backend does, a summarization whose [try] block raises
    answers with no summary. *)
Lemma summarize_text_absorbs (text : str) (max_length : nat)
    (w w1 : World.t) (e : exn) :
  summarize_body E text max_length w = (Raise e, w1) ->
  exists w', summarize_text E text max_length w = (Ok None, w').
Proof.
  intros H. unfold summarize_text. destruct (_ || _).
  - now exists w.
  - unfold try_except. rewrite H. now exists w1.
Qed.

Lemma generate_summary_total (text_data : TextData) : total (generate_summary E text_data).
Proof.
  unfold generate_summary. apply try_except_total.
  intros e w. now exists None, w.
Qed.

Lemma keeps_db_generate_summary (text_data : TextData) :
  keeps World.db (generate_summary E text_data).
Proof.
  unfold generate_summary. apply keeps_try; [|auto with keeps].
  destruct (negb _); auto using keeps_db_summarize_text with keeps.
Qed.

Lemma keeps_images_generate_summary (text_data : TextData) :
  keeps World.image_folder (generate_summary E text_data).
Proof.
  unfold generate_summary. apply keeps_try; [|auto with keeps].
  destruct (negb _); auto using keeps_images_summarize_text with keeps.
Qed.

Lemma generate_summary_absorbs (text_data : TextData) (w w1 : World.t) (e : exn) :
  summarize_body E (full_text_of text_data) 500 w = (Raise e, w1) ->
  exists w', generate_summary E text_data w = (Ok None, w').
Proof.
  intros H. unfold generate_summary, try_except.
  destruct (negb (truthy (strip (full_text_of text_data)))).
  - now exists w.
  - edestruct summarize_text_absorbs as [w' Hw']; [exact H|].
    rewrite Hw'. now exists w'.
Qed.

End LLMFacts.

(* ================================================================== *)
(** ** Extraction *)

Section ExtractionFacts.
Variable table : Type.
Variable E : Engines table.

Lemma images_loop_ok (document_id : str) (page_num : nat) (imgs : list BaseImage.t) :
  forall (img_index : nat) (image_links links' : list ImageLink.t) (w w' : World.t),
    images_loop E document_id page_num imgs img_index image_links w = (Ok links', w') ->
    links' = image_links ++ page_links E document_id page_num imgs img_index /\
    World.db w' = World.db w /\
    map fst (World.image_folder w') =
      map fst (World.image_folder w)
      ++ map ImageLink.filename (page_links E document_id page_num imgs img_index).
Proof.
  induction imgs as [|img rest IH]; intros i il il' w w' H; simpl in H.
  - inversion H; subst. simpl. now rewrite !app_nil_r.
  - bind_inv H. bind_inv H. apply IH in H as (-> & Hdb & Hfs).
    unfold lift in Hstep. unfold write_image in Hstep0.
    inversion Hstep; subst. inversion Hstep0; subst. simpl in *.
    rewrite <- app_assoc. simpl. split; [reflexivity|]. split; [assumption|].
    rewrite Hfs, map_app, <- app_assoc. reflexivity.
Qed.

Lemma pages_loop_ok (document_id : str) (pages : list FitzPage.t) :
  forall (page_num : nat) (text_data text' : TextData)
         (image_links links' : list ImageLink.t) (w w' : World.t),
    pages_loop E document_id pages page_num text_data image_links w
      = (Ok (text', links'), w') ->
    text' = text_fold pages page_num text_data /\
    links' = image_links ++ doc_links E document_id pages page_num /\
    World.db w' = World.db w /\
    map fst (World.image_folder w') =
      map fst (World.image_folder w)
      ++ map ImageLink.filename (doc_links E document_id pages page_num).
Proof.
  induction pages as [|pg rest IH]; intros k td td' il il' w w' H; simpl in H.
  - inversion H; subst. simpl. now rewrite !app_nil_r.
  - bind_inv H. apply images_loop_ok in Hstep as (-> & Hdb & Hfs).
    apply IH in H as (-> & -> & Hdb' & Hfs'). simpl.
    rewrite <- app_assoc. repeat split; try congruence.
    rewrite Hfs', Hfs, map_app, <- app_assoc. reflexivity.
Qed.

Lemma labels_upto_fresh {V} (k n : nat) (d : PyDict.dict V) :
  labels_upto k d -> k < n -> PyDict.contains d (page_label n) = false.
Proof.
  intros Hd Hlt. induction d as [|[k0 v0] d IH]; simpl; [reflexivity|].
  apply orb_false_iff. split.
  - destruct (Hd k0) as (j & Hj & ->); [now left|].
    rewrite page_label_eqb. apply Nat.eqb_neq. lia.
  - apply IH. intros key Hin. apply Hd. now right.
Qed.

Lemma labels_upto_snoc {V} (k : nat) (d : PyDict.dict V) (v : V) :
  labels_upto k d -> labels_upto (S k) (d ++ [(page_label (S k), v)]).
Proof.
  intros Hd key Hin. unfold PyDict.keys in Hin.
  rewrite map_app in Hin. apply in_app_or in Hin as [Hin|[<-|[]]].
  - destruct (Hd key Hin) as (j & Hj & ->). exists j. split; [lia|reflexivity].
  - exists (S k). split; [lia|reflexivity].
Qed.

Lemma labels_upto_weaken {V} (k k' : nat) (d : PyDict.dict V) :
  labels_upto k d -> k <= k' -> labels_upto k' d.
Proof.
  intros Hd Hle key Hin. destruct (Hd key Hin) as (j & Hj & ->).
  exists j. split; [lia|reflexivity].
Qed.

Lemma text_fold_fresh (pages : list FitzPage.t) :
  forall (page_num : nat) (text_data : TextData),
    labels_upto page_num text_data ->
    text_fold pages page_num text_data =
      text_data ++ combine (page_labels page_num (length pages))
                           (map FitzPage.get_text pages).
Proof.
  induction pages as [|pg rest IH]; intros k td Hd; simpl.
  - now rewrite app_nil_r.
  - rewrite set_fresh by (apply labels_upto_fresh with (k := k); [assumption|lia]).
    rewrite IH.
    + rewrite <- app_assoc. unfold page_labels. simpl.
      replace (k + 1) with (S k) by lia. replace (S k + 1) with (S (S k)) by lia.
      reflexivity.
    + replace (k + 1) with (S k) by lia. now apply labels_upto_snoc.
Qed.

Lemma extract_text_and_images_ok (fi : FileInfo.t) (document_id : str)
    (w w' : World.t) (text : TextData) (links : list ImageLink.t) :
  extract_text_and_images E fi document_id w = (Ok (text, links), w') ->
  exists pages,
    fitz_open E (FileInfo.path fi) = Ok pages /\
    text = text_fold pages 0 [] /\
    links = doc_links E document_id pages 0 /\
    World.db w' = World.db w /\
    map fst (World.image_folder w') =
      map fst (World.image_folder w)
      ++ map ImageLink.filename (doc_links E document_id pages 0).
Proof.
  unfold extract_text_and_images. intros H.
  bind_inv H as u w1 Hlog. bind_inv H as pages w2 Hopen.
  unfold log in Hlog. inversion Hlog; subst u w1; clear Hlog.
  unfold lift in Hopen. inversion Hopen as [[Hopen' Hw]]; subst w2; clear Hopen.
  apply pages_loop_ok in H as (-> & -> & Hdb & Hfs).
  exists pages. simpl in *. auto.
Qed.

Lemma extract_tables_ok (fi : FileInfo.t) (w w' : World.t)
    (table_data : TableData table) :
  extract_tables E fi w = (Ok table_data, w') ->
  exists tpages,
    pdfplumber_open E (FileInfo.path fi) = Ok tpages /\
    table_data = tables_loop tpages 0 [] /\
    World.db w' = World.db w /\
    World.image_folder w' = World.image_folder w.
Proof.
  unfold extract_tables. intros H.
  bind_inv H as u w1 Hlog. bind_inv H as tpages w2 Hopen.
  unfold log in Hlog. inversion Hlog; subst u w1; clear Hlog.
  unfold lift in Hopen. inversion Hopen as [[Hopen' Hw]]; subst w2; clear Hopen.
  unfold ret in H. inversion H; subst. exists tpages. simpl. auto.
Qed.

End ExtractionFacts.

(* ================================================================== *)
(** ** Storage *)

Section StorageFacts.
Variable table : Type.
Variable E : Engines table.

Lemma update_document_ok (document_id : str) (f : PDFDocument.t -> PDFDocument.t)
    (w w' : World.t) (u : unit) :
  update_document document_id f w = (Ok u, w') ->
  existsb (has_id document_id) (World.db w) = true /\
  World.db w' =
    map (fun doc => if has_id document_id doc then f doc else doc) (World.db w) /\
  World.image_folder w' = World.image_folder w.
Proof.
  unfold update_document, bind, get_db, put_db, raise.
  destruct (existsb _ _); intros H; inversion H; subst. simpl. auto.
Qed.

Lemma update_last (document_id : str) (f : PDFDocument.t -> PDFDocument.t)
    (d : Database) (doc : PDFDocument.t) :
  existsb (has_id document_id) d = false ->
  has_id document_id doc = true ->
  map (fun x => if has_id document_id x then f x else x) (d ++ [doc])
    = d ++ [f doc].
Proof.
  intros Hd Hdoc. rewrite map_app. simpl. rewrite Hdoc. f_equal.
  induction d as [|x d IH]; simpl in *; [reflexivity|].
  apply orb_false_iff in Hd as [Hx Hd]. now rewrite Hx, IH.
Qed.

Lemma find_last (document_id : str) (d : Database) (doc : PDFDocument.t) :
  existsb (has_id document_id) d = false ->
  has_id document_id doc = true ->
  get_document_with_relations (d ++ [doc]) document_id = Some doc.
Proof.
  intros Hd Hdoc. unfold get_document_with_relations.
  induction d as [|x d IH]; simpl in *.
  - now rewrite Hdoc.
  - apply orb_false_iff in Hd as [Hx Hd]. now rewrite Hx, IH.
Qed.

Lemma has_id_refl (doc : PDFDocument.t) : has_id (PDFDocument.id doc) doc = true.
Proof. apply str_eqb_refl. Qed.

Lemma create_document_ok (fi : FileInfo.t) (w w' : World.t) (doc : PDFDocument.t) :
  create_document E fi w = (Ok doc, w') ->
  existsb (has_id (generate_uuid E (World.db w))) (World.db w) = false /\
  doc = PDFDocument.mk (generate_uuid E (World.db w)) (FileInfo.path fi)
          (FileInfo.filename fi) (utcnow E) [] [] [] /\
  World.db w' = World.db w ++ [doc] /\
  World.image_folder w' = World.image_folder w.
Proof.
  unfold create_document, bind, get_db, put_db, raise, ret.
  destruct (existsb _ _); intros H; inversion H; subst. simpl. auto.
Qed.

Lemma save_text_content_ok (document_id : str) (pages : TextData)
    (w w' : World.t) (u : unit) :
  save_text_content document_id pages w = (Ok u, w') ->
  exists rows,
    text_rows pages = Ok rows /\
    World.db w' =
      map (fun doc =>
             if has_id document_id doc
             then PDFDocument.mk (PDFDocument.id doc) (PDFDocument.filename doc)
                    (PDFDocument.original_filename doc) (PDFDocument.created_at doc)
                    (PDFDocument.text_contents doc ++ rows)
                    (PDFDocument.images doc) (PDFDocument.tables doc)
             else doc) (World.db w) /\
    World.image_folder w' = World.image_folder w.
Proof.
  unfold save_text_content. intros H. bind_inv H.
  unfold lift in Hstep. inversion Hstep; subst.
  apply update_document_ok in H as (_ & Hdb & Hfs). eauto.
Qed.

Lemma save_tables_ok (document_id : str) (pages : TableData table)
    (w w' : World.t) (u : unit) :
  save_tables E document_id pages w = (Ok u, w') ->
  exists rows,
    table_rows E pages = Ok rows /\
    World.db w' =
      map (fun doc =>
             if has_id document_id doc
             then PDFDocument.mk (PDFDocument.id doc) (PDFDocument.filename doc)
                    (PDFDocument.original_filename doc) (PDFDocument.created_at doc)
                    (PDFDocument.text_contents doc) (PDFDocument.images doc)
                    (PDFDocument.tables doc ++ rows)
             else doc) (World.db w) /\
    World.image_folder w' = World.image_folder w.
Proof.
  unfold save_tables. intros H. bind_inv H.
  unfold lift in Hstep. inversion Hstep; subst.
  apply update_document_ok in H as (_ & Hdb & Hfs). eauto.
Qed.

(** What a successful [process_pdf] has done: the engines opened the file,
    the generated identifier was new, the response holds what was
    extracted, and the database gained one document with the rows of the
    extracted content. *)
Lemma process_pdf_ok (fi : FileInfo.t) (b : bool) (w w' : World.t)
    (resp : PDFExtractResponse.t table) :
  process_pdf E fi b w = (Ok resp, w') ->
  exists pages tpages rows trows summary,
    existsb (has_id (generate_uuid E (World.db w))) (World.db w) = false /\
    fitz_open E (FileInfo.path fi) = Ok pages /\
    pdfplumber_open E (FileInfo.path fi) = Ok tpages /\
    resp = PDFExtractResponse.mk (generate_uuid E (World.db w))
             (FileInfo.filename fi) (text_fold pages 0 [])
             (tables_loop tpages 0 [])
             (doc_links E (generate_uuid E (World.db w)) pages 0)
             summary (utcnow E) /\
    text_rows (text_fold pages 0 []) = Ok rows /\
    table_rows E (tables_loop tpages 0 []) = Ok trows /\
    World.db w' =
      World.db w ++
        [PDFDocument.mk (generate_uuid E (World.db w)) (FileInfo.path fi)
           (FileInfo.filename fi) (utcnow E) rows
           (map image_row (doc_links E (generate_uuid E (World.db w)) pages 0))
           trows] /\
    map fst (World.image_folder w') =
      map fst (World.image_folder w)
      ++ map ImageLink.filename
           (doc_links E (generate_uuid E (World.db w)) pages 0) /\
    (b = false -> summary = None).
Proof.
  unfold process_pdf. intros H.
  bind_inv H as doc w0 Hcreate.
  apply create_document_ok in Hcreate as (Hnew & -> & Hdb0 & Hfs0).
  cbn [PDFDocument.id PDFDocument.created_at] in H.
  set (id := generate_uuid E (World.db w)) in *.
  bind_inv H as extracted w1 Hext. destruct extracted as [text links].
  apply extract_text_and_images_ok in Hext
    as (pages & Hopen & -> & -> & Hdb1 & Hfs1).
  cbn [fst snd] in H.
  bind_inv H as table_data w2 Htab.
  apply extract_tables_ok in Htab as (tpages & Hplumb & -> & Hdb2 & Hfs2).
  bind_inv H as u3 w3 Hsave.
  apply save_text_content_ok in Hsave as (rows & Hrows & Hdb3 & Hfs3).
  bind_inv H as u4 w4 Hsave. unfold save_images in Hsave.
  apply update_document_ok in Hsave as (_ & Hdb4 & Hfs4).
  bind_inv H as u5 w5 Hsave.
  assert (Htab : exists trows,
    table_rows E (tables_loop tpages 0 []) = Ok trows /\
    World.db w5 =
      map (fun doc =>
             if has_id id doc
             then PDFDocument.mk (PDFDocument.id doc) (PDFDocument.filename doc)
                    (PDFDocument.original_filename doc) (PDFDocument.created_at doc)
                    (PDFDocument.text_contents doc) (PDFDocument.images doc)
                    (PDFDocument.tables doc ++ trows)
             else doc) (World.db w4) /\
    World.image_folder w5 = World.image_folder w4).
  { destruct (tables_loop tpages 0 []) eqn:Htl.
    - exists []. unfold ret in Hsave. inversion Hsave; subst. simpl.
      split; [reflexivity|]. split; [|reflexivity].
      clear. induction (World.db w5) as [|x d IH]; simpl; [reflexivity|].
      rewrite <- IH. destruct (has_id id x); [|reflexivity].
      rewrite app_nil_r. now destruct x.
    - now apply save_tables_ok in Hsave. }
  destruct Htab as (trows & Htrows & Hdb5 & Hfs5). clear Hsave.
  bind_inv H as summary w6 Hsum. unfold ret in H. inversion H; subst resp w'; clear H.
  assert (Hkeep : World.db w6 = World.db w5 /\
                  World.image_folder w6 = World.image_folder w5 /\
                  (b = false -> summary = None)).
  { destruct b.
    - pose proof (keeps_db_generate_summary E (text_fold pages 0 []) w5) as Hk.
      pose proof (keeps_images_generate_summary E (text_fold pages 0 []) w5) as Hi.
      rewrite Hsum in Hk, Hi. simpl in Hk, Hi. repeat split; auto. discriminate.
    - unfold ret in Hsum. inversion Hsum; subst. auto. }
  destruct Hkeep as (Hdb6 & Hfs6 & Hnone).
  exists pages, tpages, rows, trows, summary.
  repeat split; auto.
  - rewrite Hdb6, Hdb5, Hdb4, Hdb3, Hdb2, Hdb1, Hdb0.
    rewrite !(@update_last id) by (assumption || apply str_eqb_refl).
    reflexivity.
  - rewrite Hfs6, Hfs5, Hfs4, Hfs3, Hfs2, Hfs1, Hfs0. reflexivity.
Qed.

End StorageFacts.

(* ================================================================== *)
(** ** Image links and their file names *)

Section LinkFacts.
Variable table : Type.
Variable E : Engines table.

Lemma page_links_in (document_id : str) (page_num : nat) (imgs : list BaseImage.t) :
  forall (img_index : nat) (l : ImageLink.t),
    In l (page_links E document_id page_num imgs img_index) ->
    exists j img,
      nth_error imgs j = Some img /\
      ImageLink.page l = page_num + 1 /\
      ImageLink.index l = img_index + j + 1 /\
      ImageLink.filename l =
        image_filename_of document_id (page_num + 1) (img_index + j + 1)
          (BaseImage.ext img) /\
      ImageLink.url l = get_image_url E (ImageLink.filename l) /\
      ImageLink.document_id l = document_id.
Proof.
  induction imgs as [|img rest IH]; intros i l Hin; simpl in Hin; [contradiction|].
  destruct Hin as [<-|Hin].
  - exists 0, img. simpl. rewrite Nat.add_0_r. repeat split; reflexivity.
  - apply IH in Hin as (j & img' & Hnth & Hp & Hi & Hf & Hu & Hd).
    exists (S j), img'. simpl. replace (i + S j + 1) with (S i + j + 1) by lia.
    repeat split; assumption.
Qed.

Lemma doc_links_in (document_id : str) (pages : list FitzPage.t) :
  forall (page_num : nat) (l : ImageLink.t),
    In l (doc_links E document_id pages page_num) ->
    exists q pg j img,
      nth_error pages q = Some pg /\
      nth_error (FitzPage.get_images pg) j = Some img /\
      ImageLink.page l = page_num + q + 1 /\
      ImageLink.index l = j + 1 /\
      ImageLink.filename l =
        image_filename_of document_id (ImageLink.page l) (ImageLink.index l)
          (BaseImage.ext img) /\
      ImageLink.url l = get_image_url E (ImageLink.filename l) /\
      ImageLink.document_id l = document_id.
Proof.
  induction pages as [|pg rest IH]; intros k l Hin; simpl in Hin; [contradiction|].
  apply in_app_or in Hin as [Hin|Hin].
  - apply page_links_in in Hin as (j & img & Hnth & Hp & Hi & Hf & Hu & Hd).
    exists 0, pg, j, img. simpl in *. rewrite Hp, Hi, Nat.add_0_r.
    repeat split; auto.
  - apply IH in Hin as (q & pg' & j & img & Hq & Hnth & Hp & Hi & Hf & Hu & Hd).
    exists (S q), pg', j, img. simpl. replace (k + S q + 1) with (S k + q + 1) by lia.
    repeat split; assumption.
Qed.

Lemma doc_links_image_at (document_id : str) (pages : list FitzPage.t)
    (l : ImageLink.t) :
  In l (doc_links E document_id pages 0) ->
  exists pg img,
    In pg pages /\ In img (FitzPage.get_images pg) /\
    image_at pages (ImageLink.page l) (ImageLink.index l) (BaseImage.ext img) /\
    ImageLink.filename l =
      image_filename_of document_id (ImageLink.page l) (ImageLink.index l)
        (BaseImage.ext img).
Proof.
  intros Hin.
  apply doc_links_in in Hin as (q & pg & j & img & Hq & Hnth & Hp & Hi & Hf & _).
  exists pg, img. split; [eapply nth_error_In; eassumption|].
  split; [eapply nth_error_In; eassumption|]. split; [|assumption].
  exists pg, img. rewrite Hp, Hi. simpl.
  replace (q + 1 - 1) with q by lia. replace (j + 1 - 1) with j by lia.
  repeat split; auto; lia.
Qed.

End LinkFacts.

(** Two file names that begin with identifiers of the same length agree
    on the identifier. *)
Lemma image_filename_of_same_length (d1 d2 : str) (p1 p2 i1 i2 : nat) (e1 e2 : str) :
  length d1 = length d2 ->
  image_filename_of d1 p1 i1 e1 = image_filename_of d2 p2 i2 e2 ->
  d1 = d2.
Proof.
  unfold image_filename_of.
  generalize (lit "_page_" ++ str_of_nat p1 ++ lit "_image_" ++ str_of_nat i1
                ++ lit "." ++ e1).
  generalize (lit "_page_" ++ str_of_nat p2 ++ lit "_image_" ++ str_of_nat i2
                ++ lit "." ++ e2).
  intros t2 t1. revert d2.
  induction d1 as [|c d1 IH]; intros [|c' d2] Hlen Heq; simpl in *;
    try discriminate; [reflexivity|].
  inversion Heq; subst. f_equal. apply IH; [congruence|assumption].
Qed.

(** The file name format can be read back from the right when the
    extension has no dot: equal names come from equal identifiers, pages,
    indexes and extensions. *)
Lemma image_filename_of_inj (d1 d2 : str) (p1 p2 i1 i2 : nat) (e1 e2 : str) :
  ~ In 46%N e1 -> ~ In 46%N e2 ->
  image_filename_of d1 p1 i1 e1 = image_filename_of d2 p2 i2 e2 ->
  d1 = d2 /\ p1 = p2 /\ i1 = i2 /\ e1 = e2.
Proof.
  intros He1 He2 H. unfold image_filename_of in H.
  apply (f_equal (@rev _)) in H. rewrite !rev_app_distr in H.
  change (rev (lit ".")) with [46%N] in H.
  change (rev (lit "_image_")) with ([95; 101; 103; 97; 109; 105]%N ++ [95%N]) in H.
  change (rev (lit "_page_")) with ([95; 101; 103; 97; 112]%N ++ [95%N]) in H.
  rewrite <- !app_assoc in H. simpl in H.
  apply split_at_first in H as [Hext H];
    [|rewrite <- in_rev; assumption|rewrite <- in_rev; assumption].
  assert (Hdig : forall n, ~ In 95%N (rev (str_of_nat n))).
  { intros n Hin. apply in_rev in Hin. revert Hin.
    apply digits_no_char; [reflexivity|apply str_of_nat_digits]. }
  apply split_at_first in H as [Hi H]; [|apply Hdig|apply Hdig].
  inversion H as [H']. clear H.
  apply split_at_first in H' as [Hp H]; [|apply Hdig|apply Hdig].
  inversion H as [H']. clear H.
  apply (f_equal (@rev _)) in Hext, Hi, Hp, H'.
  rewrite !rev_involutive in Hext, Hi, Hp, H'.
  apply str_of_nat_inj in Hi, Hp. auto.
Qed.

(* ================================================================== *)
(** ** Retrieval *)

Section RetrievalFacts.
Variable table : Type.
Variable E : Engines table.

(** Reading a document does not change the world. *)
Lemma get_pdf_by_id_pure (document_id : str) (w : World.t) :
  snd (get_pdf_by_id E document_id w) = w.
Proof.
  unfold get_pdf_by_id, bind, get_db, lift, ret.
  destruct (get_document_with_relations _ _); [|reflexivity].
  destruct (table_pages_of _ _ _); reflexivity.
Qed.

Lemma labels_upto_nil {V} (k : nat) : labels_upto k (@nil (str * V)).
Proof. intros key []. Qed.

(** Text rows of a mapping keyed by consecutive page labels. *)
Lemma text_rows_labels (texts : list str) :
  forall a,
    text_rows (combine (page_labels a (length texts)) texts) =
      Ok (map (fun item => TextContent.mk (fst item) (snd item))
              (combine (seq (a + 1) (length texts)) texts)).
Proof.
  induction texts as [|t texts IH]; intros a; simpl; [reflexivity|].
  rewrite parse_page_label_label. unfold page_labels in IH.
  specialize (IH (S a)). replace (S a + 1) with (S (a + 1)) in IH by lia.
  now rewrite IH.
Qed.

Lemma text_pages_of_labels (texts : list str) :
  forall a (text_pages : TextData),
    labels_upto a text_pages ->
    fold_left
      (fun text_pages text =>
         PyDict.set text_pages (page_label (TextContent.page_number text))
           (TextContent.content text))
      (map (fun item => TextContent.mk (fst item) (snd item))
           (combine (seq (a + 1) (length texts)) texts))
      text_pages
    = text_pages ++ combine (page_labels a (length texts)) texts.
Proof.
  induction texts as [|t texts IH]; intros a td Hd; simpl.
  - now rewrite app_nil_r.
  - rewrite set_fresh by (apply labels_upto_fresh with (k := a); [assumption|lia]).
    specialize (IH (S a)). replace (S a + 1) with (S (a + 1)) in IH by lia.
    rewrite IH.
    + rewrite <- app_assoc. unfold page_labels. simpl.
      replace (S a + 1) with (S (a + 1)) by lia. reflexivity.
    + replace (a + 1) with (S a) by lia. now apply labels_upto_snoc.
Qed.

(** Reading back the text rows of consecutive pages. *)
Lemma text_pages_of_rows (texts : list str) (a : nat) :
  text_pages_of
    (map (fun item => TextContent.mk (fst item) (snd item))
         (combine (seq (S a) (length texts)) texts))
  = combine (page_labels a (length texts)) texts.
Proof.
  unfold text_pages_of. replace (S a) with (a + 1) by lia.
  now rewrite text_pages_of_labels by apply labels_upto_nil.
Qed.

Lemma items_above_weaken {V} (items : list (nat * list V)) (k k' : nat) :
  items_above k items -> k' <= k -> items_above k' items.
Proof.
  destruct items as [|[n ts] rest]; simpl; [auto|].
  intros (Hk & Hts & Hrest) Hle. repeat split; auto. lia.
Qed.

Lemma table_items_above (pages : list (list table)) :
  forall k, items_above k (table_items k pages).
Proof.
  induction pages as [|ts rest IH]; intros k; simpl; [exact I|].
  destruct ts as [|t ts].
  - apply items_above_weaken with (k := S k); [apply IH|lia].
  - simpl. repeat split; [lia|discriminate|].
    replace (k + 1) with (S k) by lia. apply IH.
Qed.

Lemma labels_upto_items {V} (k : nat) (d : PyDict.dict V) (n : nat) (v : V) :
  labels_upto k d -> k < n -> labels_upto n (d ++ [(page_label n, v)]).
Proof.
  intros Hd Hlt key Hin. unfold PyDict.keys in Hin.
  rewrite map_app in Hin. apply in_app_or in Hin as [Hin|[<-|[]]].
  - destruct (Hd key Hin) as (j & Hj & ->). exists j. split; [lia|reflexivity].
  - exists n. split; [lia|reflexivity].
Qed.

Lemma tables_loop_items (pages : list (list table)) :
  forall k (tables : TableData table),
    labels_upto k tables ->
    tables_loop pages k tables = tables ++ label_items (table_items k pages).
Proof.
  induction pages as [|ts rest IH]; intros k td Hd; simpl.
  - now rewrite app_nil_r.
  - destruct ts as [|t ts].
    + apply IH. apply labels_upto_weaken with (k := k); [assumption|lia].
    + rewrite set_fresh by (apply labels_upto_fresh with (k := k); [assumption|lia]).
      rewrite IH.
      * now rewrite <- app_assoc.
      * replace (k + 1) with (S k) by lia. now apply labels_upto_snoc.
Qed.

Lemma table_rows_items (items : list (nat * list table)) :
  table_rows E (label_items items) =
    Ok (flat_map (fun item => page_table_rows E (fst item) 0 (snd item)) items).
Proof.
  induction items as [|[n ts] rest IH]; simpl; [reflexivity|].
  now rewrite parse_page_label_label, IH.
Qed.

Hypothesis json_round_trip : forall t, json_loads E (json_dumps E t) = Ok t.

(** The rows of one page, read back into a mapping whose last item is
    that page. *)
Lemma table_pages_of_page (n : nat) (ts : list table) :
  forall (i : nat) (rest : list Table.t) (d : TableData table) (l : list table),
    PyDict.contains d (page_label n) = false ->
    table_pages_of E (page_table_rows E n i ts ++ rest) (d ++ [(page_label n, l)])
    = table_pages_of E rest (d ++ [(page_label n, l ++ ts)]).
Proof.
  induction ts as [|t ts IH]; intros i rest d l Hd; simpl.
  - now rewrite app_nil_r.
  - rewrite contains_last. simpl. rewrite json_round_trip.
    rewrite get_last by assumption. rewrite set_last by assumption.
    rewrite IH by assumption. now rewrite <- app_assoc.
Qed.

Lemma table_pages_of_items (items : list (nat * list table)) :
  forall k (d : TableData table),
    items_above k items -> labels_upto k d ->
    table_pages_of E
      (flat_map (fun item => page_table_rows E (fst item) 0 (snd item)) items) d
    = Ok (d ++ label_items items).
Proof.
  induction items as [|[n ts] rest IH]; intros k d Habove Hd; simpl.
  - now rewrite app_nil_r.
  - destruct Habove as (Hk & Hts & Hrest).
    destruct ts as [|t ts]; [contradiction|]. simpl.
    pose proof (labels_upto_fresh (n := n) Hd Hk) as Hfresh.
    rewrite Hfresh. simpl. rewrite json_round_trip.
    rewrite (@set_fresh _ d (page_label n) [] Hfresh).
    rewrite get_last by assumption. rewrite set_last by assumption. simpl.
    rewrite table_pages_of_page by assumption.
    rewrite (IH n).
    + now rewrite <- app_assoc.
    + assumption.
    + now apply labels_upto_items with (k := k).
Qed.

Lemma links_read_back (document_id : str) (links : list ImageLink.t) :
  (forall l, In l links ->
     ImageLink.url l = get_image_url E (ImageLink.filename l) /\
     ImageLink.document_id l = document_id) ->
  map (image_link_of_row E document_id) (map image_row links) = links.
Proof.
  induction links as [|l links IH]; intros H; simpl; [reflexivity|].
  rewrite IH by (intros l' Hl'; apply H; now right).
  destruct (H l) as [Hu Hd]; [now left|].
  unfold image_link_of_row, image_row. simpl.
  destruct l; simpl in *. now rewrite <- Hu, <- Hd.
Qed.

(** After a document has been processed, reading it back by its identifier
    gives the response of processing, with the summary removed. *)
Lemma retrieval_after_process (fi : FileInfo.t) (b : bool) (w w' : World.t)
    (resp : PDFExtractResponse.t table) :
  process_pdf E fi b w = (Ok resp, w') ->
  get_pdf_by_id E (PDFExtractResponse.id resp) w' =
    (Ok (Some (PDFExtractResponse.mk (PDFExtractResponse.id resp)
                 (PDFExtractResponse.filename resp)
                 (PDFExtractResponse.text resp)
                 (PDFExtractResponse.tables resp)
                 (PDFExtractResponse.images resp)
                 None
                 (PDFExtractResponse.created_at resp))), w').
Proof.
  intros H.
  apply process_pdf_ok in H
    as (pages & tpages & rows & trows & summary & Hnew & Hopen & Hplumb
        & -> & Hrows & Htrows & Hdb & _ & _).
  cbn [PDFExtractResponse.id PDFExtractResponse.filename PDFExtractResponse.text
       PDFExtractResponse.tables PDFExtractResponse.images
       PDFExtractResponse.created_at].
  set (id := generate_uuid E (World.db w)) in *.
  unfold get_pdf_by_id, bind, get_db. rewrite Hdb.
  erewrite find_last by (exact Hnew || apply str_eqb_refl).
  cbn [PDFDocument.text_contents PDFDocument.tables PDFDocument.images
       PDFDocument.original_filename PDFDocument.created_at].
  rewrite text_fold_fresh in Hrows |- * by apply labels_upto_nil.
  simpl app in Hrows |- *.
  rewrite <- (length_map FitzPage.get_text) in Hrows.
  rewrite text_rows_labels in Hrows. inversion Hrows; subst rows; clear Hrows.
  rewrite tables_loop_items in Htrows |- * by apply labels_upto_nil.
  simpl app in Htrows |- *.
  rewrite table_rows_items in Htrows. inversion Htrows; subst trows; clear Htrows.
  unfold lift.
  erewrite table_pages_of_items
    by (apply table_items_above || apply labels_upto_nil).
  simpl app. unfold ret.
  rewrite text_pages_of_rows.
  rewrite length_map. simpl app.
  rewrite links_read_back; [reflexivity|].
  intros l Hin.
  apply doc_links_in in Hin as (_ & _ & _ & _ & _ & _ & _ & _ & _ & Hu & Hd).
  auto.
Qed.

End RetrievalFacts.

(* ================================================================== *)
(** ** The extension check *)

Lemma rev_lower (s : str) :
  rev (lower s) = flat_map (fun c => rev (lower_char c)) (rev s).
Proof.
  unfold lower. induction s as [|c s IH]; simpl; [reflexivity|].
  rewrite rev_app_distr, IH, flat_map_app. simpl. now rewrite app_nil_r.
Qed.

(** One step of the suffix test, for the four code points of [".pdf"]. *)
Lemma startswith_lower_char (c x : char) (t p : str) :
  In x [46; 100; 102; 112]%N ->
  startswith (rev (lower_char c) ++ t) (x :: p) = same_letter c x && startswith t p.
Proof.
  intros Hx. unfold lower_char, same_letter.
  destruct (N.leb_spec 65 c); destruct (N.leb_spec c 90); cbn [andb orb];
    repeat match goal with
           | |- context [if (?a =? ?b)%N then _ else _] =>
               destruct (N.eqb_spec a b); subst
           end;
    cbn [rev app startswith]; unfold char_eqb;
    repeat (destruct Hx as [<-|Hx]; [|]); try contradiction;
    repeat match goal with
           | |- context [(?a =? ?b)%N] => destruct (N.eqb_spec a b)
           end;
    cbn [andb orb]; try reflexivity; try lia.
Qed.

Lemma same_letter_cases (c x : char) :
  same_letter c x = true <-> c = x \/ (c + 32 = x /\ 65 <= c <= 90)%N.
Proof.
  unfold same_letter. rewrite orb_true_iff, !andb_true_iff.
  rewrite !N.eqb_eq, !N.leb_le. tauto.
Qed.

Lemma has_pdf_extension_iff (filename : str) :
  has_pdf_extension filename = true <-> named_pdf filename.
Proof.
  unfold has_pdf_extension, endswith, named_pdf. rewrite rev_lower.
  change (rev (lit ".pdf")) with [102; 100; 112; 46]%N.
  split.
  - intros H. rewrite <- (rev_involutive filename).
    destruct (rev filename) as [|c [|b [|a [|dot r]]]]; cbn [flat_map] in H;
      try discriminate H;
      repeat (rewrite startswith_lower_char in H by (simpl; tauto)).
    + simpl in H. rewrite andb_false_r in H. discriminate.
    + simpl in H. rewrite !andb_false_r in H. discriminate.
    + simpl in H. rewrite !andb_false_r in H. discriminate.
    + apply andb_true_iff in H as [Hc H]. apply andb_true_iff in H as [Hb H].
      apply andb_true_iff in H as [Ha H]. apply andb_true_iff in H as [Hdot _].
      apply same_letter_cases in Hc, Hb, Ha, Hdot.
      exists (rev r), a, b, c. cbn [rev]. rewrite <- !app_assoc. cbn [app].
      assert (dot = 46%N) by lia. subst dot.
      repeat split; try reflexivity; lia.
  - intros (stem & a & b & c & -> & Ha & Hb & Hc).
    rewrite rev_app_distr. cbn [rev app flat_map].
    repeat (rewrite startswith_lower_char by (simpl; tauto)).
    assert (H0 : same_letter 46%N 46%N = true) by reflexivity.
    assert (H1 : same_letter c 102%N = true) by (apply same_letter_cases; lia).
    assert (H2 : same_letter b 100%N = true) by (apply same_letter_cases; lia).
    assert (H3 : same_letter a 112%N = true) by (apply same_letter_cases; lia).
    now rewrite H0, H1, H2, H3.
Qed.

(* ================================================================== *)
(** ** The properties of the specification *)

Section Properties.
Variable table : Type.

(** A summary is the last step of processing: with the summary requested,
    [process_pdf] does what it does without one and then summarizes. *)
Lemma process_pdf_then_summary (E : Engines table) (fi : FileInfo.t)
    (w w1 : World.t) (r : PDFExtractResponse.t table) :
  process_pdf E fi false w = (Ok r, w1) ->
  process_pdf E fi true w =
    match generate_summary E (PDFExtractResponse.text r) w1 with
    | (Ok s, w2) =>
        (Ok (PDFExtractResponse.mk (PDFExtractResponse.id r)
               (PDFExtractResponse.filename r) (PDFExtractResponse.text r)
               (PDFExtractResponse.tables r) (PDFExtractResponse.images r) s
               (PDFExtractResponse.created_at r)), w2)
    | (Raise e, w2) => (Raise e, w2)
    end.
Proof.
  unfold process_pdf. intros H.
  bind_inv H as doc w0 H0. erewrite bind_step by exact H0. cbv beta zeta in *.
  bind_inv H as ex w2 H2. erewrite bind_step by exact H2. cbv beta zeta in *.
  bind_inv H as td w3 H3. erewrite bind_step by exact H3. cbv beta zeta in *.
  bind_inv H as u4 w4 H4. erewrite bind_step by exact H4. cbv beta zeta in *.
  bind_inv H as u5 w5 H5. erewrite bind_step by exact H5. cbv beta zeta in *.
  bind_inv H as u6 w6 H6. erewrite bind_step by exact H6. cbv beta zeta in *.
  unfold bind, ret in H. inversion H; subst r w1; clear H.
  unfold bind, ret. cbn [PDFExtractResponse.text].
  destruct (generate_summary E (fst ex) w6) as [[s|e] w7]; reflexivity.
Qed.

(** C1.  Reading a processed document back by the identifier in the
    response of processing succeeds, and the result has as many text
    pages, as many table pages and as many images as that response; its
    summary is absent. *)
Theorem retrieval_round_trip_counts (E : Engines table) (fi : FileInfo.t)
    (b : bool) (w w' : World.t) (resp : PDFExtractResponse.t table) :
  (forall t, json_loads E (json_dumps E t) = Ok t) ->
  process_pdf E fi b w = (Ok resp, w') ->
  exists r,
    fst (get_pdf_by_id E (PDFExtractResponse.id resp) w') = Ok (Some r) /\
    PyDict.len (PDFExtractResponse.text r)
      = PyDict.len (PDFExtractResponse.text resp) /\
    PyDict.len (PDFExtractResponse.tables r)
      = PyDict.len (PDFExtractResponse.tables resp) /\
    length (PDFExtractResponse.images r)
      = length (PDFExtractResponse.images resp) /\
    PDFExtractResponse.summary r = None.
Proof.
  intros Hjson H. erewrite retrieval_after_process by eassumption.
  eexists. split; [reflexivity|]. simpl. auto.
Qed.

(** C2.  The text mapping of the response has one entry per page of the
    PDF, keyed "Page 1" to "Page N" in page order, each holding the text
    of its page. *)
Theorem process_text_pages (E : Engines table) (fi : FileInfo.t)
    (b : bool) (w w' : World.t) (resp : PDFExtractResponse.t table)
    (pages : list FitzPage.t) :
  fitz_open E (FileInfo.path fi) = Ok pages ->
  process_pdf E fi b w = (Ok resp, w') ->
  PDFExtractResponse.text resp =
    combine (map page_label (seq 1 (length pages)))
            (map FitzPage.get_text pages) /\
  PyDict.len (PDFExtractResponse.text resp) = length pages /\
  PyDict.keys (PDFExtractResponse.text resp) =
    map page_label (seq 1 (length pages)).
Proof.
  intros Hopen H.
  apply process_pdf_ok in H
    as (pages' & tpages & rows & trows & summary & _ & Hopen' & _ & -> & _).
  rewrite Hopen in Hopen'. inversion Hopen'; subst pages'.
  cbn [PDFExtractResponse.text].
  rewrite text_fold_fresh by (intros key []).
  unfold page_labels. simpl app. simpl Nat.add.
  assert (Hlen : length (map page_label (seq 1 (length pages)))
                 = length (map FitzPage.get_text pages))
    by now rewrite !length_map, length_seq.
  split; [reflexivity|]. split.
  - unfold PyDict.len. rewrite length_combine, Hlen, Nat.min_id.
    apply length_map.
  - unfold PyDict.keys. clear - Hlen.
    revert Hlen. generalize (map page_label (seq 1 (length pages))).
    generalize (map FitzPage.get_text pages).
    intros ts ks. revert ts. induction ks as [|k ks IH]; intros [|t ts] Hlen;
      simpl in *; try discriminate; [reflexivity|].
    f_equal. apply IH. congruence.
Qed.

(** C3.  [summarize_text] never raises; when the body of its [try] block
    raises, whatever the exception, it answers with no summary; and a
    [process_pdf] that succeeds without a summary also succeeds with the
    summary requested, returning the same extraction result, whose summary
    is absent when the summarization raised. *)
Theorem summarization_failures_absorbed (E : Engines table) (text : str)
    (max_length : nat) (w : World.t) (fi : FileInfo.t) :
  (exists v w', summarize_text E text max_length w = (Ok v, w')) /\
  (forall e w1,
     summarize_body E text max_length w = (Raise e, w1) ->
     exists w', summarize_text E text max_length w = (Ok None, w')) /\
  (forall r w1,
     process_pdf E fi false w = (Ok r, w1) ->
     exists s w2,
       process_pdf E fi true w =
         (Ok (PDFExtractResponse.mk (PDFExtractResponse.id r)
                (PDFExtractResponse.filename r) (PDFExtractResponse.text r)
                (PDFExtractResponse.tables r) (PDFExtractResponse.images r) s
                (PDFExtractResponse.created_at r)), w2) /\
       World.db w2 = World.db w1 /\
       World.image_folder w2 = World.image_folder w1 /\
       (forall e w3,
          summarize_body E (full_text_of (PDFExtractResponse.text r)) 500 w1
            = (Raise e, w3) ->
          s = None)).
Proof.
  split; [apply summarize_text_total|]. split.
  - intros e w1 H. eapply summarize_text_absorbs; eassumption.
  - intros r w1 H. erewrite process_pdf_then_summary by exact H.
    pose proof (keeps_db_generate_summary E (PDFExtractResponse.text r) w1) as Hdb.
    pose proof (keeps_images_generate_summary E (PDFExtractResponse.text r) w1) as Hfs.
    destruct (generate_summary_total E (PDFExtractResponse.text r) w1)
      as (s & w2 & Hs).
    rewrite Hs in *. exists s, w2. repeat split; auto.
    intros e w3 Hbody.
    edestruct generate_summary_absorbs as (w2' & Hs'); [exact Hbody|].
    congruence.
Qed.

(** C4.  An upload whose file name does not end in ".pdf", in either
    case, is answered with a 400 error, and the world is left exactly as it
    was: no file saved, no engine called, no document row created. *)
Theorem non_pdf_rejected (E : Engines table) (file : UploadFile.t)
    (include_summary : bool) (w : World.t) :
  ~ named_pdf (UploadFile.filename file) ->
  extract_pdf E file include_summary w =
    (Raise (HTTPException 400 (lit "Only PDF files are supported.")), w).
Proof.
  intros H. unfold extract_pdf.
  destruct (has_pdf_extension (UploadFile.filename file)) eqn:Hext.
  - apply has_pdf_extension_iff in Hext. contradiction.
  - reflexivity.
Qed.

(** C5.  Every image link of the response names the file its image was
    saved under: the document identifier, the page and index of the link,
    and the extension of the image at that place of the PDF, in the format
    of [image_filename_of].  For two processed documents with different
    identifiers no image file name of one is an image file name of the
    other, the identifiers being of one length, as generated identifiers
    are, or the extensions being without a dot, as the PDF engine reports
    them. *)
Theorem image_files_named_and_distinct (E1 E2 : Engines table)
    (fi1 fi2 : FileInfo.t) (b1 b2 : bool) (w1 w1' w2 w2' : World.t)
    (r1 r2 : PDFExtractResponse.t table) (pages1 pages2 : list FitzPage.t) :
  fitz_open E1 (FileInfo.path fi1) = Ok pages1 ->
  process_pdf E1 fi1 b1 w1 = (Ok r1, w1') ->
  fitz_open E2 (FileInfo.path fi2) = Ok pages2 ->
  process_pdf E2 fi2 b2 w2 = (Ok r2, w2') ->
  (forall l, In l (PDFExtractResponse.images r1) ->
     exists image_ext,
       image_at pages1 (ImageLink.page l) (ImageLink.index l) image_ext /\
       ImageLink.filename l =
         image_filename_of (PDFExtractResponse.id r1) (ImageLink.page l)
           (ImageLink.index l) image_ext /\
       In (ImageLink.filename l) (map fst (World.image_folder w1'))) /\
  (length (PDFExtractResponse.id r1) = length (PDFExtractResponse.id r2) \/
   plain_extensions pages1 /\ plain_extensions pages2 ->
   PDFExtractResponse.id r1 <> PDFExtractResponse.id r2 ->
   forall l1 l2,
     In l1 (PDFExtractResponse.images r1) ->
     In l2 (PDFExtractResponse.images r2) ->
     ImageLink.filename l1 <> ImageLink.filename l2).
Proof.
  intros Hopen1 H1 Hopen2 H2.
  apply process_pdf_ok in H1
    as (p1 & tp1 & rows1 & trows1 & s1 & _ & Hopen1' & _ & -> & _ & _ & _ & Hfs1 & _).
  apply process_pdf_ok in H2
    as (p2 & tp2 & rows2 & trows2 & s2 & _ & Hopen2' & _ & -> & _).
  rewrite Hopen1 in Hopen1'. inversion Hopen1'; subst p1.
  rewrite Hopen2 in Hopen2'. inversion Hopen2'; subst p2.
  cbn [PDFExtractResponse.images PDFExtractResponse.id]. split.
  - intros l Hin.
    pose proof (doc_links_image_at _ _ _ _ Hin) as (pg & img & _ & _ & Hat & Hname).
    exists (BaseImage.ext img). repeat split; try assumption.
    rewrite Hfs1. apply in_or_app. right. now apply in_map.
  - intros Hshape Hid l1 l2 Hin1 Hin2 Heq.
    pose proof (doc_links_image_at _ _ _ _ Hin1) as (pg1 & img1 & Hpg1 & Himg1 & _ & Hn1).
    pose proof (doc_links_image_at _ _ _ _ Hin2) as (pg2 & img2 & Hpg2 & Himg2 & _ & Hn2).
    rewrite Hn1, Hn2 in Heq. apply Hid.
    destruct Hshape as [Hlen|[Hplain1 Hplain2]].
    + eapply image_filename_of_same_length; eassumption.
    + apply image_filename_of_inj in Heq as (Hd & _).
      * assumption.
      * eapply Hplain1; eassumption.
      * eapply Hplain2; eassumption.
Qed.

(** C6.  Whatever the document and whatever happened when it was
    processed, a response of [get_pdf_by_id] has no summary. *)
Theorem retrieval_has_no_summary (E : Engines table) (document_id : str)
    (w w' : World.t) (r : PDFExtractResponse.t table) :
  get_pdf_by_id E document_id w = (Ok (Some r), w') ->
  PDFExtractResponse.summary r = None.
Proof.
  unfold get_pdf_by_id, bind, get_db, lift, ret.
  destruct (get_document_with_relations _ _) as [document|]; [|discriminate].
  destruct (table_pages_of _ _ _); [|discriminate].
  intros H. inversion H. reflexivity.
Qed.

(** C9.  [get_pdf_by_id] leaves the world as it found it, and a second
    call with the same identifier returns what the first returned. *)
Theorem retrieval_idempotent (E : Engines table) (document_id : str)
    (w : World.t) :
  snd (get_pdf_by_id E document_id w) = w /\
  get_pdf_by_id E document_id (snd (get_pdf_by_id E document_id w))
    = get_pdf_by_id E document_id w.
Proof.
  pose proof (get_pdf_by_id_pure E document_id w) as H.
  split; [exact H|]. now rewrite H.
Qed.

(** C10.  Once the extension check has passed, an exception raised by the
    body of the handler leaves [extract_pdf] as a 400 error whose detail
    carries the message of that exception; this includes the handler's own
    500 error for an empty document identifier; and no error of
    [extract_pdf] has a status other than 400. *)
Theorem extract_failures_are_400 (E : Engines table) (file : UploadFile.t)
    (include_summary : bool) (w : World.t) :
  has_pdf_extension (UploadFile.filename file) = true ->
  (forall e w1,
     extract_body E file include_summary w = (Raise e, w1) ->
     extract_pdf E file include_summary w =
       (Raise (HTTPException 400 (lit "Error processing PDF: " ++ exn_str e)), w1)) /\
  (forall fi r w1 w2,
     save_upload_file E file w = (Ok fi, w1) ->
     process_pdf E fi include_summary w1 = (Ok r, w2) ->
     PDFExtractResponse.id r = [] ->
     extract_pdf E file include_summary w =
       (Raise (HTTPException 400
                 (lit "Error processing PDF: 500: Failed to generate document ID")),
        w2)) /\
  (forall e w1,
     extract_pdf E file include_summary w = (Raise e, w1) ->
     exists detail, e = HTTPException 400 detail).
Proof.
  intros Hext. unfold extract_pdf. rewrite Hext. cbn [negb].
  split; [|split].
  - intros e w1 H. unfold try_except. now rewrite H.
  - intros fi r w1 w2 Hsave Hproc Hid.
    unfold try_except, extract_body.
    erewrite bind_step by exact Hsave. erewrite bind_step by exact Hproc.
    rewrite Hid. reflexivity.
  - intros e w1. unfold try_except.
    destruct (extract_body E file include_summary w) as [[r|e0] w0]; intros H.
    + discriminate.
    + unfold raise in H. inversion H. eauto.
Qed.

End Properties.

(* ================================================================== *)
(** ** The properties at work on the concrete installation *)

Lemma retrieval_round_trip_counts_witness :
  exists r,
    fst (get_pdf_by_id Demo.engines (PDFExtractResponse.id Demo.response)
           Demo.world_after) = Ok (Some r) /\
    PyDict.len (PDFExtractResponse.text r) = 2 /\
    PyDict.len (PDFExtractResponse.tables r) = 1 /\
    length (PDFExtractResponse.images r) = 1 /\
    PDFExtractResponse.summary r = None.
Proof.
  apply (retrieval_round_trip_counts Demo.engines Demo.file_info true
           Demo.empty_world).
  - intros t. reflexivity.
  - vm_compute. reflexivity.
Defined.

Lemma process_text_pages_witness :
  PDFExtractResponse.text Demo.response =
    [(lit "Page 1", lit "Hello"); (lit "Page 2", lit "World")] /\
  PyDict.len (PDFExtractResponse.text Demo.response) = 2 /\
  PyDict.keys (PDFExtractResponse.text Demo.response) =
    [lit "Page 1"; lit "Page 2"].
Proof.
  apply (process_text_pages Demo.engines Demo.file_info true Demo.empty_world
           (w' := Demo.world_after) (pages := [Demo.page1; Demo.page2])).
  - reflexivity.
  - vm_compute. reflexivity.
Defined.

Lemma summarization_failures_absorbed_witness :
  exists w2,
    process_pdf Demo.offline Demo.file_info true Demo.empty_world
      = (Ok Demo.response_offline, w2).
Proof.
  destruct (summarization_failures_absorbed Demo.offline [] 0
              Demo.empty_world Demo.file_info) as (_ & _ & H).
  destruct (H Demo.response_offline Demo.world_offline eq_refl)
    as (s & w2 & Hp & _ & _ & Hnone).
  exists w2. rewrite Hp.
  rewrite (Hnone (EngineError (lit "connection refused"))
             (snd (summarize_body Demo.offline
                     (full_text_of (PDFExtractResponse.text Demo.response_offline))
                     500 Demo.world_offline))
             eq_refl).
  reflexivity.
Defined.

Lemma non_pdf_rejected_witness :
  extract_pdf Demo.engines Demo.notes true Demo.world_after =
    (Raise (HTTPException 400 (lit "Only PDF files are supported.")),
     Demo.world_after).
Proof.
  apply non_pdf_rejected.
  intros H. apply has_pdf_extension_iff in H. vm_compute in H. discriminate H.
Defined.

Lemma image_files_named_and_distinct_witness :
  (exists image_ext,
     image_at [Demo.page1; Demo.page2] 2 1 image_ext /\
     lit "doc-0_page_2_image_1.png" =
       image_filename_of (lit "doc-0") 2 1 image_ext /\
     In (lit "doc-0_page_2_image_1.png")
        (map fst (World.image_folder Demo.world_after))) /\
  lit "doc-0_page_2_image_1.png" <> lit "doc-1_page_2_image_1.png".
Proof.
  destruct (image_files_named_and_distinct Demo.engines Demo.engines
              Demo.file_info Demo.file_info true false
              Demo.empty_world Demo.world_after
              (w1' := Demo.world_after) (w2' := Demo.world_after2)
              (r1 := Demo.response) (r2 := Demo.response2)
              (pages1 := [Demo.page1; Demo.page2])
              (pages2 := [Demo.page1; Demo.page2])
              eq_refl eq_refl eq_refl eq_refl) as [Hnamed Hdistinct].
  split.
  - apply (Hnamed Demo.link). left. reflexivity.
  - apply (Hdistinct (or_introl eq_refl)) with (l1 := Demo.link) (l2 := Demo.link2).
    + discriminate.
    + left. reflexivity.
    + left. reflexivity.
Defined.

Lemma retrieval_has_no_summary_witness :
  PDFExtractResponse.summary Demo.response = Some (lit "A greeting.") /\
  PDFExtractResponse.summary Demo.retrieved = None.
Proof.
  split; [reflexivity|].
  apply (retrieval_has_no_summary Demo.engines (lit "doc-0") Demo.world_after
           (w' := Demo.world_after)).
  vm_compute. reflexivity.
Defined.

Lemma summarize_submits_truncated_witness :
  exists submitted,
    World.trace (snd (summarize_text Demo.engines Demo.long_text 500
                        Demo.empty_world)) =
      World.trace Demo.empty_world ++
        [EvLLMInvoke Demo.llm
           [SystemMessage
              (lit "You are a helpful assistant that creates concise summaries of documents."
               ++ [10%N] ++
               lit "Your task is to summarize the provided document content clearly and accurately."
               ++ [10%N] ++
               lit "Focus on the main points, key information, and important details."
               ++ [10%N] ++
               lit "Keep the summary informative but concise.");
            HumanMessage
              (lit "Please summarize the following document content in approximately "
               ++ str_of_nat 500 ++ lit " words or less:"
               ++ [10; 10]%N ++ lit "---" ++ [10%N]
               ++ submitted
               ++ [10%N] ++ lit "---" ++ [10; 10]%N
               ++ lit "Provide a clear, structured summary that captures the essential information.")]] /\
    len Demo.long_text = 15001%N /\
    submitted = firstn (N.to_nat 15000) Demo.long_text /\
    len submitted = 15000%N.
Proof.
  assert (Hnb : ~ blank Demo.long_text).
  { unfold Demo.long_text.
    replace (N.to_nat 15001) with (S (N.to_nat 15000)) by lia.
    cbn [repeat]. intros H. inversion H as [|c s Hc Hs]. discriminate Hc. }
  assert (Hlong : (15000 < len Demo.long_text)%N).
  { unfold len, Demo.long_text. rewrite repeat_length. lia. }
  destruct (summarize_submits_truncated Demo.engines 500 Demo.empty_world
              (w1 := Demo.world_with_llm) Hnb eq_refl)
    as (submitted & Htrace & Hcut & _).
  exists submitted. split; [exact Htrace|]. split.
  - unfold len, Demo.long_text. rewrite repeat_length. lia.
  - exact (Hcut Hlong).
Defined.

Lemma summarize_blank_skips_backend_witness :
  summarize_text Demo.engines (lit "  ") 500 Demo.empty_world
    = (Ok None, Demo.empty_world).
Proof.
  apply summarize_blank_skips_backend.
  repeat constructor.
Defined.

Lemma extract_failures_are_400_witness :
  extract_pdf Demo.no_ids Demo.upload true Demo.empty_world =
    (Raise (HTTPException 400
              (lit "Error processing PDF: 500: Failed to generate document ID")),
     snd (extract_pdf Demo.no_ids Demo.upload true Demo.empty_world)).
Proof.
  destruct (extract_failures_are_400 Demo.no_ids Demo.upload true
              Demo.empty_world eq_refl) as (_ & H & _).
  apply (H Demo.file_info
           (PDFExtractResponse.mk [] (lit "a.pdf")
              (PDFExtractResponse.text Demo.response)
              (PDFExtractResponse.tables Demo.response)
              [ImageLink.mk (lit "/api/v1/images/_page_2_image_1.png") 2 1
                 (lit "_page_2_image_1.png") []]
              (Some (lit "A greeting.")) 1700000000%N)
           (snd (save_upload_file Demo.no_ids Demo.upload Demo.empty_world))).
  - reflexivity.
  - vm_compute. reflexivity.
  - reflexivity.
Defined.

(* ================================================================== *)
(** ** Further properties: the LLM service *)

Section StepFacts.
Variable R : World.t -> World.t -> Prop.
Hypothesis R_refl : forall w, R w w.
Hypothesis R_trans : forall w1 w2 w3, R w1 w2 -> R w2 w3 -> R w1 w3.

Lemma steps_ret {A} (a : A) : steps R (ret a).
Proof. intros w. apply R_refl. Qed.

Lemma steps_raise {A} (e : exn) : steps R (@raise A e).
Proof. intros w. apply R_refl. Qed.

Lemma steps_lift {A} (r : result A) : steps R (lift r).
Proof. intros w. apply R_refl. Qed.

Lemma steps_bind {A B} (m : M A) (k : A -> M B) :
  steps R m -> (forall a, steps R (k a)) -> steps R (bind m k).
Proof.
  intros Hm Hk w. unfold bind. specialize (Hm w).
  destruct (m w) as [[a|e] w1]; simpl in *; [|assumption].
  eapply R_trans; [eassumption|apply Hk].
Qed.

Lemma steps_try {A} (m : M A) (h : exn -> M A) :
  steps R m -> (forall e, steps R (h e)) -> steps R (try_except m h).
Proof.
  intros Hm Hh w. unfold try_except. specialize (Hm w).
  destruct (m w) as [[a|e] w1]; simpl in *; [assumption|].
  eapply R_trans; [eassumption|apply Hh].
Qed.

End StepFacts.

Lemma preserves_bind {A B} (P : World.t -> Prop) (m : M A) (k : A -> M B) :
  preserves P m -> (forall a, preserves P (k a)) -> preserves P (bind m k).
Proof.
  intros Hm Hk w Hw. unfold bind. specialize (Hm w Hw).
  destruct (m w) as [[a|e] w1]; simpl in *; [|assumption].
  now apply Hk.
Qed.

Lemma preserves_keeps {A X} (part : World.t -> X) (Q : X -> Prop) (m : M A) :
  keeps part m -> preserves (fun w => Q (part w)) m.
Proof. intros Hk w Hw. now rewrite Hk. Qed.

Section LLMMore.
Variable table : Type.

Lemma get_llm_ok_cached (E : Engines table) (w w1 : World.t) (llm : ChatModel) :
  get_llm E w = (Ok llm, w1) -> World._llm w1 = Some llm.
Proof.
  unfold get_llm, bind, get_cached_llm, set_cached_llm, ret, raise.
  destruct (World._llm w) as [c|] eqn:Hc.
  - intros H. inversion H; subst. assumption.
  - destruct (str_eqb _ (lit "ollama")).
    { intros H. inversion H; subst. reflexivity. }
    destruct (str_eqb _ (lit "openrouter")); [|discriminate].
    destruct (negb _); [discriminate|].
    intros H. inversion H; subst. reflexivity.
Qed.

(** X1.  Once a handle has been built, [get_llm] keeps returning it and
    leaves the world alone, whatever the configuration has become. *)
Theorem get_llm_cached_ignores_settings (E E' : Engines table)
    (w w1 : World.t) (llm : ChatModel) :
  get_llm E w = (Ok llm, w1) ->
  get_llm E' w1 = (Ok llm, w1).
Proof.
  intros H. apply get_llm_ok_cached in H.
  unfold get_llm, bind, get_cached_llm. now rewrite H.
Qed.

(** On a string of ASCII characters [lower] maps the capitals A to Z to
    their small letters and leaves every other character as it is. *)
Lemma lower_ascii (s : str) :
  Forall (fun c => (c < 128)%N) s ->
  lower s =
    map (fun c => if ((65 <=? c) && (c <=? 90))%N then (c + 32)%N else c) s.
Proof.
  unfold lower. induction 1 as [|c s Hc _ IH]; simpl; [reflexivity|].
  rewrite IH. unfold lower_char.
  destruct ((65 <=? c) && (c <=? 90))%N; [reflexivity|].
  destruct (N.eqb_spec c 8490); [lia|].
  destruct (N.eqb_spec c 304); [lia|]. reflexivity.
Qed.

(** X2.  With no handle cached and a provider name of ASCII characters
    that is neither "ollama" nor "openrouter" once its capitals are made
    small, [get_llm] raises a [ValueError] whose message names the
    provider in small letters, and changes nothing: no handle is
    cached. *)
Theorem get_llm_unsupported_provider (E : Engines table) (w : World.t) :
  World._llm w = None ->
  Forall (fun c => (c < 128)%N) (Settings.LLM_PROVIDER (settings E)) ->
  let provider :=
    map (fun c => if ((65 <=? c) && (c <=? 90))%N then (c + 32)%N else c)
        (Settings.LLM_PROVIDER (settings E)) in
  provider <> lit "ollama" ->
  provider <> lit "openrouter" ->
  get_llm E w =
    (Raise (ValueError
              (lit "Unsupported LLM provider: " ++ provider
                 ++ lit ". Supported providers: ollama, openrouter")),
     w).
Proof.
  intros Hc Hascii provider Ho Hr. subst provider.
  rewrite <- (lower_ascii Hascii) in *.
  unfold get_llm, bind, get_cached_llm, raise. rewrite Hc.
  apply str_eqb_neq in Ho, Hr. now rewrite Ho, Hr.
Qed.

(** X3.  After [reset_llm], [get_llm] builds the handle of the current
    configuration, whatever was cached before: for the Ollama provider, in
    any letter case, the handle of the configured host and model, which is
    then the cached one. *)
Theorem reset_llm_then_get_llm (E : Engines table) (w : World.t) :
  lower (Settings.LLM_PROVIDER (settings E)) = lit "ollama" ->
  let llm := ChatOllama (Settings.OLLAMA_HOST (settings E))
                        (Settings.OLLAMA_MODEL (settings E)) in
  exists w1,
    bind reset_llm (fun _ => get_llm E) w = (Ok llm, w1) /\
    World._llm w1 = Some llm /\
    World.db w1 = World.db w /\ World.trace w1 = World.trace w /\
    World.image_folder w1 = World.image_folder w.
Proof.
  intros Hp. simpl. eexists. split.
  - unfold bind, reset_llm, get_llm, get_cached_llm, set_cached_llm, ret.
    cbn [World._llm]. rewrite Hp. cbn [str_eqb]. reflexivity.
  - cbn. auto.
Qed.

(** X4.  [is_available] never raises and never calls the backend; it
    answers [True] exactly when [get_llm] can give a handle, and then a
    handle is cached. *)
Theorem is_available_spec (E : Engines table) (w : World.t) :
  exists b w',
    is_available E w = (Ok b, w') /\
    (b = true <-> exists llm w1, get_llm E w = (Ok llm, w1)) /\
    (b = true -> World._llm w' <> None) /\
    World.trace w' = World.trace w /\
    World.db w' = World.db w /\
    World.image_folder w' = World.image_folder w.
Proof.
  pose proof (keeps_trace_get_llm E w) as Htr.
  pose proof (keeps_db_get_llm E w) as Hdb.
  pose proof (keeps_images_get_llm E w) as Hfs.
  unfold is_available, try_except, bind, ret.
  destruct (get_llm E w) as [[llm|e] w1] eqn:Hget; simpl in *.
  - exists true, w1. repeat split; auto.
    + intros _. eauto.
    + intros _. apply get_llm_ok_cached in Hget. congruence.
  - exists false, w1. repeat split; auto; try discriminate.
    intros (llm & w2 & H). discriminate.
Qed.

(** X5.  When no handle is cached, [GET /llm/status] returns a status
    and no error; if the status says available, the model and host it
    reports are those of the handle the call has cached. *)
Theorem llm_status_matches_handle (E : Engines table) (w : World.t) :
  World._llm w = None ->
  exists st w',
    get_llm_status E w = (Ok st, w') /\
    (LLMStatus.available st = true ->
     match World._llm w' with
     | Some (ChatOllama base_url model) =>
         LLMStatus.host st = base_url /\ LLMStatus.model st = model
     | Some (ChatOpenAI _ base_url model _) =>
         LLMStatus.host st = base_url /\ LLMStatus.model st = model
     | None => False
     end).
Proof.
  intros Hc.
  unfold get_llm_status, is_available, get_llm.
  unfold try_except, bind, ret, get_cached_llm, set_cached_llm, raise.
  rewrite Hc.
  destruct (str_eqb _ (lit "ollama")) eqn:Ho.
  - eexists. eexists. split; [reflexivity|]. cbn. auto.
  - destruct (str_eqb _ (lit "openrouter")) eqn:Hr.
    + destruct (negb _); eexists; eexists; (split; [reflexivity|]); cbn;
        [discriminate|auto].
    + eexists. eexists. split; [reflexivity|]. cbn. discriminate.
Qed.

End LLMMore.

(* ================================================================== *)
(** ** Further properties: summaries *)

Lemma lstrip_hd (s : str) (c : char) (r : str) :
  lstrip s = c :: r -> isspace c = false.
Proof.
  induction s as [|d s IH]; simpl; [discriminate|].
  destruct (isspace d) eqn:Hd; [assumption|].
  intros H. inversion H; subst. assumption.
Qed.

Lemma lstrip_suffix (s : str) : exists ws, s = ws ++ lstrip s.
Proof.
  induction s as [|d s [ws IH]]; simpl; [now exists []|].
  destruct (isspace d).
  - exists (d :: ws). simpl. now rewrite <- IH.
  - now exists [].
Qed.

(** What [strip] returns neither begins nor ends with white space. *)
Lemma strip_ends (s : str) :
  (forall c r, strip s = c :: r -> isspace c = false) /\
  (forall r c, strip s = r ++ [c] -> isspace c = false).
Proof.
  unfold strip, rstrip.
  destruct (lstrip_suffix (rev (lstrip s))) as [ws Hws].
  set (u := lstrip (rev (lstrip s))) in *. split.
  - intros c r H.
    apply (f_equal (@rev _)) in Hws. rewrite rev_involutive, rev_app_distr in Hws.
    rewrite H in Hws. simpl in Hws. now apply lstrip_hd in Hws.
  - intros r c H.
    apply (f_equal (@rev _)) in H. rewrite rev_involutive, rev_app_distr in H.
    simpl in H. now apply lstrip_hd in H.
Qed.

Lemma not_blank_of_char (s : str) (c : char) :
  In c s -> isspace c = false -> ~ blank s.
Proof.
  intros Hin Hc Hb. unfold blank in Hb. rewrite Forall_forall in Hb.
  apply Hb in Hin. congruence.
Qed.

Lemma join_head (sep x : str) (xs : list str) (c : char) :
  In c x -> In c (join sep (x :: xs)).
Proof.
  intros H. destruct xs; simpl; [assumption|]. apply in_or_app. now left.
Qed.

Section SummaryMore.
Variable table : Type.
Variable E : Engines table.

(** The one backend call of a summarization that reaches the backend. *)
Lemma summarize_text_run (text : str) (max_length : nat) (w w1 : World.t)
    (llm : ChatModel) :
  ~ blank text ->
  get_llm E w = (Ok llm, w1) ->
  let messages :=
    [SystemMessage system_prompt;
     HumanMessage (user_prompt max_length (slice_to 15000 text))] in
  let w2 := World.mk (World.db w1) (World.image_folder w1) (World._llm w1)
              (World.trace w ++ [EvLLMInvoke llm messages]) in
  summarize_text E text max_length w =
    match llm_invoke E llm messages with
    | Ok content => (Ok (Some (strip content)), w2)
    | Raise _ => (Ok None, w2)
    end.
Proof.
  intros Hb Hllm. simpl. unfold summarize_text.
  destruct (negb (truthy text) || negb (truthy (strip text))) eqn:Ht.
  { apply blank_test in Ht. contradiction. }
  pose proof (keeps_trace_get_llm E w) as Htr. rewrite Hllm in Htr.
  simpl in Htr. unfold try_except, summarize_body, invoke.
  erewrite bind_step by exact Hllm. unfold bind, log, lift, ret.
  rewrite Htr. destruct (llm_invoke E llm _); reflexivity.
Qed.

(** X6.  When the backend answers, the summary is its answer with the
    white space at both ends removed: it neither begins nor ends with
    white space, and an answer of white space only gives the empty string
    as summary, not an absent one. *)
Theorem summarize_text_answer (text : str) (max_length : nat)
    (w w1 : World.t) (llm : ChatModel) (content : str) :
  ~ blank text ->
  get_llm E w = (Ok llm, w1) ->
  llm_invoke E llm
    [SystemMessage system_prompt;
     HumanMessage (user_prompt max_length (slice_to 15000 text))] = Ok content ->
  exists summary,
    fst (summarize_text E text max_length w) = Ok (Some summary) /\
    summary = strip content /\
    (forall c r, summary = c :: r -> isspace c = false) /\
    (forall r c, summary = r ++ [c] -> isspace c = false) /\
    (blank content -> summary = []).
Proof.
  intros Hb Hllm Hans. exists (strip content).
  erewrite summarize_text_run by eassumption. cbv zeta. rewrite Hans.
  destruct (strip_ends content) as [Hhd Hlast].
  repeat split; auto. intros Hblank. now apply strip_nil_iff.
Qed.

Lemma full_text_not_blank (n : nat) (t : str) (rest : TextData) :
  ~ blank (full_text_of ((page_label n, t) :: rest)).
Proof.
  apply not_blank_of_char with (c := 80%N); [|reflexivity].
  unfold full_text_of. cbn [map fst snd]. apply join_head.
  unfold page_label. simpl. now left.
Qed.

(** X7.  For the text of a PDF with at least one page, [generate_summary]
    calls the backend exactly once when a handle is to be had, even if
    every page is empty: the page labels alone make the text non-blank.
    For a PDF without pages it returns no summary and calls nothing. *)
Theorem generate_summary_calls_backend (texts : list str) (w w1 : World.t)
    (llm : ChatModel) :
  texts <> [] ->
  get_llm E w = (Ok llm, w1) ->
  let text_data := combine (map page_label (seq 1 (length texts))) texts in
  World.trace (snd (generate_summary E text_data w)) =
    World.trace w ++
      [EvLLMInvoke llm
         [SystemMessage system_prompt;
          HumanMessage
            (user_prompt 500 (slice_to 15000 (full_text_of text_data)))]] /\
  generate_summary E [] w = (Ok None, w).
Proof.
  intros Hne Hllm. cbv zeta. split; [|reflexivity].
  destruct texts as [|t texts]; [contradiction|].
  cbn [length seq map combine].
  set (rest := combine (map page_label (seq 2 (length texts))) texts).
  pose proof (@full_text_not_blank 1 t rest) as Hnb.
  unfold generate_summary, try_except.
  destruct (negb (truthy (strip (full_text_of ((page_label 1, t) :: rest)))))
    eqn:Hs.
  { exfalso. apply Hnb. apply blank_test. rewrite Hs. apply orb_true_r. }
  erewrite summarize_text_run by eassumption. cbv zeta.
  destruct (llm_invoke E llm _); reflexivity.
Qed.

End SummaryMore.

(* ================================================================== *)
(** ** Further properties: what processing leaves alone *)

Lemma without_llm_refl (w : World.t) : without_llm w w.
Proof. split; [reflexivity|]. exists []. now rewrite app_nil_r. Qed.

Lemma without_llm_trans (w1 w2 w3 : World.t) :
  without_llm w1 w2 -> without_llm w2 w3 -> without_llm w1 w3.
Proof.
  intros (Hl1 & a1 & Ht1 & Ha1) (Hl2 & a2 & Ht2 & Ha2). split; [congruence|].
  exists (a1 ++ a2). rewrite Ht2, Ht1, <- app_assoc. split; [reflexivity|].
  rewrite forallb_app. now rewrite Ha1, Ha2.
Qed.

Lemma writes_named_refl (document_id : str) (w : World.t) :
  writes_named document_id w w.
Proof. exists []. split; [now rewrite app_nil_r|constructor]. Qed.

Lemma writes_named_trans (document_id : str) (w1 w2 w3 : World.t) :
  writes_named document_id w1 w2 -> writes_named document_id w2 w3 ->
  writes_named document_id w1 w3.
Proof.
  intros (a1 & H1 & F1) (a2 & H2 & F2). exists (a1 ++ a2). split.
  - now rewrite H2, H1, <- app_assoc.
  - apply Forall_app. now split.
Qed.

Lemma writes_named_of_keeps {A} (document_id : str) (m : M A) :
  keeps World.image_folder m -> steps (writes_named document_id) m.
Proof.
  intros H w. exists []. split; [now rewrite H, app_nil_r|constructor].
Qed.

(** A name none of the added files has is read as before. *)
Lemma read_image_app_other (folder added : list (str * bytes)) (filename : str) :
  Forall (fun entry => fst entry <> filename) added ->
  read_image (folder ++ added) filename = read_image folder filename.
Proof.
  intros H. unfold read_image. rewrite rev_app_distr. f_equal.
  apply Forall_rev in H. induction H as [|entry rest Hne _ IH]; simpl;
    [reflexivity|].
  apply str_eqb_neq in Hne. now rewrite Hne.
Qed.

Lemma without_llm_log (ev : event) :
  is_llm_call ev = false -> steps without_llm (log ev).
Proof.
  intros H w. split; [reflexivity|]. exists [ev]. simpl. now rewrite H.
Qed.

Lemma without_llm_same {A} (m : M A) :
  keeps World._llm m -> keeps World.trace m -> steps without_llm m.
Proof.
  intros Hl Ht w. split; [apply Hl|]. exists []. now rewrite Ht, app_nil_r.
Qed.

Section ProcessMore.
Variable table : Type.
Variable E : Engines table.

Lemma without_llm_update (document_id : str) (f : PDFDocument.t -> PDFDocument.t) :
  steps without_llm (update_document document_id f).
Proof.
  apply without_llm_same; intros w; unfold update_document, bind, get_db, put_db, raise;
    destruct (existsb _ _); reflexivity.
Qed.

Lemma without_llm_images_loop (document_id : str) (page_num : nat)
    (imgs : list BaseImage.t) :
  forall img_index image_links,
    steps without_llm (images_loop E document_id page_num imgs img_index image_links).
Proof.
  induction imgs as [|img rest IH]; intros i il; simpl.
  - apply steps_ret, without_llm_refl.
  - apply (steps_bind without_llm_trans); [apply steps_lift, without_llm_refl|].
    intros image. apply (steps_bind without_llm_trans); [|intros; apply IH].
    apply without_llm_same; intros w; reflexivity.
Qed.

Lemma without_llm_pages_loop (document_id : str) (pages : list FitzPage.t) :
  forall page_num text_data image_links,
    steps without_llm (pages_loop E document_id pages page_num text_data image_links).
Proof.
  induction pages as [|pg rest IH]; intros k td il; simpl.
  - apply steps_ret, without_llm_refl.
  - apply (steps_bind without_llm_trans); [apply without_llm_images_loop|].
    intros links. apply IH.
Qed.

(** X8.  Processing without a summary leaves the LLM alone, whether it
    succeeds or fails: the cached handle is as before and the trace gains
    no backend call. *)
Theorem process_without_summary_skips_llm (fi : FileInfo.t) (w : World.t) :
  World._llm (snd (process_pdf E fi false w)) = World._llm w /\
  exists added,
    World.trace (snd (process_pdf E fi false w)) = World.trace w ++ added /\
    forallb (fun ev => negb (is_llm_call ev)) added = true.
Proof.
  change (without_llm w (snd (process_pdf E fi false w))).
  revert w. change (steps without_llm (process_pdf E fi false)).
  assert (Hret : forall A (a : A), steps without_llm (ret a))
    by (intros; apply steps_ret, without_llm_refl).
  assert (Hbind : forall A B (m : M A) (k : A -> M B),
             steps without_llm m -> (forall a, steps without_llm (k a)) ->
             steps without_llm (bind m k))
    by (intros; now apply (steps_bind without_llm_trans)).
  assert (Hlift : forall A (r : result A), steps without_llm (lift r))
    by (intros; apply steps_lift, without_llm_refl).
  unfold process_pdf. apply Hbind.
  { unfold create_document. apply without_llm_same; intros w;
      unfold bind, get_db, put_db, raise, ret; destruct (existsb _ _); reflexivity. }
  intros doc. apply Hbind.
  { unfold extract_text_and_images. apply Hbind; [now apply without_llm_log|].
    intros _. apply Hbind; [apply Hlift|]. intros pages.
    apply without_llm_pages_loop. }
  intros extracted. apply Hbind.
  { unfold extract_tables. apply Hbind; [now apply without_llm_log|].
    intros _. apply Hbind; [apply Hlift|]. intros; apply Hret. }
  intros table_data. apply Hbind.
  { unfold save_text_content. apply Hbind; [apply Hlift|].
    intros; apply without_llm_update. }
  intros _. apply Hbind; [apply without_llm_update|].
  intros _. apply Hbind.
  { destruct table_data; [apply Hret|]. unfold save_tables.
    apply Hbind; [apply Hlift|]. intros; apply without_llm_update. }
  intros _. apply Hbind; [apply Hret|]. intros; apply Hret.
Qed.

Lemma keeps_db_images_loop (document_id : str) (page_num : nat)
    (imgs : list BaseImage.t) :
  forall img_index image_links,
    keeps World.db (images_loop E document_id page_num imgs img_index image_links).
Proof.
  induction imgs as [|img rest IH]; intros i il; simpl; auto 10 with keeps.
Qed.

Lemma keeps_db_pages_loop (document_id : str) (pages : list FitzPage.t) :
  forall page_num text_data image_links,
    keeps World.db (pages_loop E document_id pages page_num text_data image_links).
Proof.
  induction pages as [|pg rest IH]; intros k td il; simpl;
    auto 10 using keeps_db_images_loop with keeps.
Qed.

Lemma writes_named_images_loop (document_id : str) (page_num : nat)
    (imgs : list BaseImage.t) :
  forall img_index image_links,
    steps (writes_named document_id)
      (images_loop E document_id page_num imgs img_index image_links).
Proof.
  induction imgs as [|img rest IH]; intros i il; simpl.
  - apply steps_ret, writes_named_refl.
  - apply (steps_bind (@writes_named_trans document_id));
      [apply steps_lift, writes_named_refl|].
    intros image.
    apply (steps_bind (@writes_named_trans document_id)); [|intros; apply IH].
    intros w. eexists. split; [reflexivity|].
    constructor; [|constructor]. simpl. eauto.
Qed.

Lemma writes_named_pages_loop (document_id : str) (pages : list FitzPage.t) :
  forall page_num text_data image_links,
    steps (writes_named document_id)
      (pages_loop E document_id pages page_num text_data image_links).
Proof.
  induction pages as [|pg rest IH]; intros k td il; simpl.
  - apply steps_ret, writes_named_refl.
  - apply (steps_bind (@writes_named_trans document_id));
      [apply writes_named_images_loop|].
    intros links. apply IH.
Qed.

Lemma keeps_images_update (document_id : str) (f : PDFDocument.t -> PDFDocument.t) :
  keeps World.image_folder (update_document document_id f).
Proof.
  intros w. unfold update_document, bind, get_db, put_db, raise.
  destruct (existsb _ _); reflexivity.
Qed.

(** An update of the new document keeps the older documents in place. *)
Lemma extends_db_update (d0 : Database) (new_id : str)
    (f : PDFDocument.t -> PDFDocument.t) :
  existsb (has_id new_id) d0 = false ->
  (forall doc, PDFDocument.id (f doc) = PDFDocument.id doc) ->
  preserves
    (fun w => exists doc, World.db w = d0 ++ [doc] /\ PDFDocument.id doc = new_id)
    (update_document new_id f).
Proof.
  intros Hnew Hf w (doc & Hdb & Hid).
  unfold update_document, bind, get_db, put_db, raise.
  destruct (existsb (has_id new_id) (World.db w)) eqn:Hex; simpl; [|eauto].
  rewrite Hdb. rewrite (@update_last new_id f d0 doc Hnew).
  - exists (f doc). split; [reflexivity|]. now rewrite Hf.
  - unfold has_id. rewrite Hid. apply str_eqb_refl.
Qed.

(** X9.  Whether it succeeds or fails, processing keeps every document
    the database had, unchanged and in place, and adds at most one, under
    the generated identifier. *)
Theorem process_keeps_older_documents (fi : FileInfo.t) (b : bool) (w : World.t) :
  extends_db (World.db w) (generate_uuid E (World.db w))
    (snd (process_pdf E fi b w)).
Proof.
  unfold process_pdf. unfold bind at 1.
  destruct (create_document E fi w) as [[doc|e] w0] eqn:Hc.
  - apply create_document_ok in Hc as (Hnew & -> & Hdb0 & _).
      cbn [PDFDocument.id PDFDocument.created_at].
      set (id := generate_uuid E (World.db w)) in *.
      set (Q := fun w1 : World.t => exists doc,
                  World.db w1 = World.db w ++ [doc] /\ PDFDocument.id doc = id).
      right.
      assert (HP : preserves Q
                (extracted <- extract_text_and_images E fi id;;
                 table_data <- extract_tables E fi;;
                 save_text_content id (fst extracted);;;
                 save_images id (snd extracted);;;
                 match table_data with
                 | [] => ret tt
                 | _ :: _ => save_tables E id table_data
                 end;;;
                 summary <- (if b then generate_summary E (fst extracted)
                             else ret None);;
                 ret (PDFExtractResponse.mk id (FileInfo.filename fi)
                        (fst extracted) table_data (snd extracted) summary
                        (utcnow E)))).
      { assert (Hk : forall A (m : M A), keeps World.db m -> preserves Q m)
          by (intros A m Hm w1 Hw1; unfold Q; now rewrite Hm).
        assert (Hu : forall f,
                  (forall doc, PDFDocument.id (f doc) = PDFDocument.id doc) ->
                  preserves Q (update_document id f))
          by (intros; now apply extends_db_update).
        apply preserves_bind.
        { apply Hk. unfold extract_text_and_images.
          auto 10 using keeps_db_pages_loop with keeps. }
        intros extracted. apply preserves_bind.
        { apply Hk. unfold extract_tables. auto 10 with keeps. }
        intros table_data. apply preserves_bind.
        { unfold save_text_content. apply preserves_bind.
          - apply Hk. auto with keeps.
          - intros rows. apply Hu. reflexivity. }
        intros _. apply preserves_bind; [apply Hu; reflexivity|].
        intros _. apply preserves_bind.
        { destruct table_data; [apply Hk; auto with keeps|].
          unfold save_tables. apply preserves_bind.
          - apply Hk. auto with keeps.
          - intros rows. apply Hu. reflexivity. }
        intros _. apply preserves_bind.
        { apply Hk. destruct b; [apply keeps_db_generate_summary|auto with keeps]. }
        intros summary. apply Hk. auto with keeps. }
      refine (HP w0 _). eexists. split; [exact Hdb0|reflexivity].
  - left. simpl. unfold create_document, bind, get_db, put_db, raise, ret in Hc.
    destruct (existsb _ _); inversion Hc. reflexivity.
Qed.

(** X21.  Whether it succeeds or fails, processing writes image files
    only under names made from the generated identifier: a file of the
    image folder with any other name reads as it did before.  The folder
    is addressed by plain names, the identifier and the extensions the
    PDF engine reports being without a slash. *)
Theorem process_writes_only_own_images (fi : FileInfo.t) (b : bool)
    (w : World.t) (filename : str) :
  ~ In 47%N (generate_uuid E (World.db w)) ->
  (forall pages pg img,
     fitz_open E (FileInfo.path fi) = Ok pages ->
     In pg pages -> In img (FitzPage.get_images pg) ->
     ~ In 47%N (BaseImage.ext img)) ->
  plain_name filename ->
  (forall page index image_ext,
     filename <>
       image_filename_of (generate_uuid E (World.db w)) page index image_ext) ->
  read_image (World.image_folder (snd (process_pdf E fi b w))) filename
    = read_image (World.image_folder w) filename.
Proof.
  intros _ _ _ Hother.
  assert (Hw : writes_named (generate_uuid E (World.db w)) w
                 (snd (process_pdf E fi b w))).
    { unfold process_pdf. unfold bind at 1.
      destruct (create_document E fi w) as [[doc|e] w0] eqn:Hc.
      - apply create_document_ok in Hc as (_ & -> & _ & Hfs0).
        cbn [PDFDocument.id PDFDocument.created_at].
        set (id := generate_uuid E (World.db w)) in *.
        assert (Hk : forall A (m : M A), keeps World.image_folder m ->
                  steps (writes_named id) m)
          by (intros; now apply writes_named_of_keeps).
        assert (Hbind : forall A B (m : M A) (k : A -> M B),
                   steps (writes_named id) m ->
                   (forall a, steps (writes_named id) (k a)) ->
                   steps (writes_named id) (bind m k))
          by (intros; now apply (steps_bind (@writes_named_trans id))).
        assert (Hrest : steps (writes_named id)
                  (extracted <- extract_text_and_images E fi id;;
                   table_data <- extract_tables E fi;;
                   save_text_content id (fst extracted);;;
                   save_images id (snd extracted);;;
                   match table_data with
                   | [] => ret tt
                   | _ :: _ => save_tables E id table_data
                   end;;;
                   summary <- (if b then generate_summary E (fst extracted)
                               else ret None);;
                   ret (PDFExtractResponse.mk id (FileInfo.filename fi)
                          (fst extracted) table_data (snd extracted) summary
                          (utcnow E)))).
        { apply Hbind.
          { unfold extract_text_and_images.
            apply Hbind; [apply Hk; auto with keeps|].
            intros _. apply Hbind; [apply Hk; auto with keeps|].
            intros pages. apply writes_named_pages_loop. }
          intros extracted. apply Hbind.
          { apply Hk. unfold extract_tables. auto 10 with keeps. }
          intros table_data. apply Hbind.
          { apply Hk. unfold save_text_content.
            auto using keeps_images_update with keeps. }
          intros _. apply Hbind; [apply Hk, keeps_images_update|].
          intros _. apply Hbind.
          { apply Hk. destruct table_data; [auto with keeps|]. unfold save_tables.
            auto using keeps_images_update with keeps. }
          intros _. apply Hbind.
          { apply Hk. destruct b;
              [apply keeps_images_generate_summary|auto with keeps]. }
          intros summary. apply Hk. auto with keeps. }
        destruct (Hrest w0) as (added & Hadd & Hnames).
        exists added. split; [now rewrite Hadd, Hfs0|assumption].
      - unfold create_document, bind, get_db, put_db, raise, ret in Hc.
        destruct (existsb _ _); inversion Hc. apply writes_named_refl. }
  destruct Hw as (added & Hadd & Hnames).
  rewrite Hadd. apply read_image_app_other.
  eapply Forall_impl; [|exact Hnames].
  intros entry (page & index & image_ext & Hname). rewrite Hname.
  intros Heq. now apply (Hother page index image_ext).
Qed.

End ProcessMore.

(* ================================================================== *)
(** ** Further properties: failure of processing *)

Section OutcomeFacts.
Variable table : Type.
Variable E : Engines table.

(** Processing a file the PDF engine cannot open. *)
Lemma process_pdf_cannot_open (fi : FileInfo.t) (b : bool) (w : World.t) (e : exn) :
  existsb (has_id (generate_uuid E (World.db w))) (World.db w) = false ->
  fitz_open E (FileInfo.path fi) = Raise e ->
  process_pdf E fi b w =
    (Raise e,
     World.mk
       (World.db w ++
          [PDFDocument.mk (generate_uuid E (World.db w)) (FileInfo.path fi)
             (FileInfo.filename fi) (utcnow E) [] [] []])
       (World.image_folder w) (World._llm w)
       (World.trace w ++ [EvFitzOpen (FileInfo.path fi)])).
Proof.
  intros Hnew Hopen.
  unfold process_pdf, create_document, extract_text_and_images.
  unfold bind, get_db, put_db, ret, raise, log, lift.
  rewrite Hnew. cbn. rewrite Hopen. reflexivity.
Qed.

(** X10.  When the PDF engine cannot open the saved upload, [extract_pdf]
    answers 400 with the engine's message in the detail; the table engine
    is never called and no image file is written. *)
Theorem unreadable_pdf_is_400 (file : UploadFile.t) (b : bool) (w : World.t)
    (fi : FileInfo.t) (e : exn) :
  has_pdf_extension (UploadFile.filename file) = true ->
  save_upload_file_io E file = Ok fi ->
  existsb (has_id (generate_uuid E (World.db w))) (World.db w) = false ->
  fitz_open E (FileInfo.path fi) = Raise e ->
  exists w',
    extract_pdf E file b w =
      (Raise (HTTPException 400 (lit "Error processing PDF: " ++ exn_str e)), w') /\
    World.trace w' =
      World.trace w ++
        [EvSaveUpload (UploadFile.filename file); EvFitzOpen (FileInfo.path fi)] /\
    World.image_folder w' = World.image_folder w.
Proof.
  intros Hext Hsave Hnew Hopen. eexists.
  unfold extract_pdf. rewrite Hext. cbn [negb].
  unfold try_except, extract_body, save_upload_file.
  unfold bind at 1. unfold bind at 1. unfold log at 1. unfold lift at 1.
  rewrite Hsave.
  erewrite bind_fail by (apply process_pdf_cannot_open; [exact Hnew|exact Hopen]).
  unfold raise. cbn. rewrite <- app_assoc. auto.
Qed.

(** X11.  With the storage layer as modelled, a document row is written
    before extraction starts and is not taken back when extraction fails:
    after a PDF the engine cannot open, the database holds one more
    document, under the generated identifier and without any rows. *)
Theorem failed_processing_leaves_document (fi : FileInfo.t) (b : bool)
    (w : World.t) (e : exn) :
  existsb (has_id (generate_uuid E (World.db w))) (World.db w) = false ->
  fitz_open E (FileInfo.path fi) = Raise e ->
  fst (process_pdf E fi b w) = Raise e /\
  World.db (snd (process_pdf E fi b w)) =
    World.db w ++
      [PDFDocument.mk (generate_uuid E (World.db w)) (FileInfo.path fi)
         (FileInfo.filename fi) (utcnow E) [] [] []].
Proof.
  intros Hnew Hopen. erewrite process_pdf_cannot_open by eassumption.
  split; reflexivity.
Qed.

End OutcomeFacts.

(* ================================================================== *)
(** ** Further properties: what extraction returns *)

Section ExtractionMore.
Variable table : Type.
Variable E : Engines table.

Lemma page_links_positions (document_id : str) (page_num : nat)
    (imgs : list BaseImage.t) :
  forall img_index,
    map (fun l => (ImageLink.page l, ImageLink.index l))
        (page_links E document_id page_num imgs img_index)
    = map (fun j => (page_num + 1, j)) (seq (img_index + 1) (length imgs)).
Proof.
  induction imgs as [|img rest IH]; intros i; simpl; [reflexivity|].
  rewrite IH. replace (S i + 1) with (S (i + 1)) by lia. reflexivity.
Qed.

Lemma doc_links_positions (document_id : str) (pages : list FitzPage.t) :
  forall page_num,
    map (fun l => (ImageLink.page l, ImageLink.index l))
        (doc_links E document_id pages page_num)
    = flat_map
        (fun item =>
           map (fun j => (fst item, j))
               (seq 1 (length (FitzPage.get_images (snd item)))))
        (combine (seq (page_num + 1) (length pages)) pages).
Proof.
  induction pages as [|pg rest IH]; intros k; simpl; [reflexivity|].
  rewrite map_app, page_links_positions, IH.
  replace (S k + 1) with (S (k + 1)) by lia. reflexivity.
Qed.

Lemma page_links_length (document_id : str) (page_num : nat)
    (imgs : list BaseImage.t) :
  forall img_index,
    length (page_links E document_id page_num imgs img_index) = length imgs.
Proof.
  induction imgs as [|img rest IH]; intros i; simpl; [reflexivity|].
  now rewrite IH.
Qed.

Lemma doc_links_length (document_id : str) (pages : list FitzPage.t) :
  forall page_num,
    length (doc_links E document_id pages page_num)
    = list_sum (map (fun pg => length (FitzPage.get_images pg)) pages).
Proof.
  induction pages as [|pg rest IH]; intros k; simpl; [reflexivity|].
  now rewrite length_app, page_links_length, IH.
Qed.

(** X13.  The image links of a response come page by page and, within a
    page, in the order of the images, numbered from 1: there is one link
    per embedded image, and each carries the identifier of the
    document. *)
Theorem image_links_in_page_order (fi : FileInfo.t) (b : bool)
    (w w' : World.t) (resp : PDFExtractResponse.t table)
    (pages : list FitzPage.t) :
  fitz_open E (FileInfo.path fi) = Ok pages ->
  process_pdf E fi b w = (Ok resp, w') ->
  map (fun l => (ImageLink.page l, ImageLink.index l))
      (PDFExtractResponse.images resp)
    = flat_map
        (fun item =>
           map (fun j => (fst item, j))
               (seq 1 (length (FitzPage.get_images (snd item)))))
        (combine (seq 1 (length pages)) pages) /\
  length (PDFExtractResponse.images resp)
    = list_sum (map (fun pg => length (FitzPage.get_images pg)) pages) /\
  Forall (fun l => ImageLink.document_id l = PDFExtractResponse.id resp)
         (PDFExtractResponse.images resp).
Proof.
  intros Hopen H.
  apply process_pdf_ok in H
    as (pages' & tpages & rows & trows & summary & _ & Hopen' & _ & -> & _).
  rewrite Hopen in Hopen'. inversion Hopen'; subst pages'.
  cbn [PDFExtractResponse.images PDFExtractResponse.id].
  split; [apply (doc_links_positions _ pages 0)|]. split.
  - apply doc_links_length.
  - apply Forall_forall. intros l Hin.
    now apply doc_links_in in Hin as (_ & _ & _ & _ & _ & _ & _ & _ & _ & _ & Hd).
Qed.

Lemma get_above {V} (k n : nat) (items : list (nat * list V)) :
  items_above k items -> n <= k ->
  PyDict.get (label_items items) (page_label n) = None.
Proof.
  revert k. induction items as [|[m ts] rest IH]; intros k Habove Hle;
    [reflexivity|].
  destruct Habove as (Hk & _ & Hrest).
  unfold label_items. cbn [map PyDict.get fst snd].
  rewrite page_label_eqb.
  destruct (Nat.eqb_spec m n); [lia|].
  apply (IH m); [assumption|lia].
Qed.

Lemma get_table_items (tpages : list (list table)) :
  forall k i,
    PyDict.get (label_items (table_items k tpages)) (page_label (k + i + 1)) =
      match nth_error tpages i with
      | Some (t :: ts) => Some (t :: ts)
      | _ => None
      end.
Proof.
  induction tpages as [|ts rest IH]; intros k i.
  - now destruct i.
  - destruct i as [|i]; cbn [nth_error table_items].
    + destruct ts as [|t ts].
      * apply get_above with (k := S k); [apply table_items_above|lia].
      * unfold label_items. cbn [map PyDict.get fst snd].
        rewrite page_label_eqb.
        replace (k + 0 + 1) with (k + 1) by lia. now rewrite Nat.eqb_refl.
    + replace (k + S i + 1) with (S k + i + 1) by lia.
      destruct ts as [|t ts]; [apply IH|].
      unfold label_items. cbn [map PyDict.get fst snd].
      rewrite page_label_eqb.
      destruct (Nat.eqb_spec (k + 1) (S k + i + 1)); [lia|]. apply IH.
Qed.

(** X14.  The table mapping has an entry for a page exactly when the
    table engine found at least one table on it, and the entry holds the
    tables of that page; a page without tables has no entry, not an empty
    one. *)
Theorem extract_tables_lookup (fi : FileInfo.t) (w w' : World.t)
    (table_data : TableData table) (tpages : list (list table)) :
  pdfplumber_open E (FileInfo.path fi) = Ok tpages ->
  extract_tables E fi w = (Ok table_data, w') ->
  (forall i,
     PyDict.get table_data (page_label (i + 1)) =
       match nth_error tpages i with
       | Some (t :: ts) => Some (t :: ts)
       | _ => None
       end) /\
  Forall (fun item => snd item <> []) table_data /\
  PyDict.len table_data <= length tpages.
Proof.
  intros Hplumb H.
  apply extract_tables_ok in H as (tpages' & Hplumb' & -> & _).
  rewrite Hplumb in Hplumb'. inversion Hplumb'; subst tpages'.
  rewrite tables_loop_items by apply labels_upto_nil. simpl app.
  clear Hplumb Hplumb'.
  split; [intros i; apply (get_table_items tpages 0 i)|]. split.
  - generalize 0. induction tpages as [|ts rest IH]; intros k; simpl;
      [constructor|].
    destruct ts; simpl; [apply IH|]. constructor; [discriminate|apply IH].
  - unfold PyDict.len, label_items. rewrite length_map.
    generalize 0. induction tpages as [|ts rest IH]; intros k; simpl; [lia|].
    destruct ts; simpl; specialize (IH (S k)); lia.
Qed.

End ExtractionMore.

(* ================================================================== *)
(** ** Further properties: the other handlers *)

Lemma read_image_in (folder : list (str * bytes)) (filename : str) :
  In filename (map fst folder) ->
  exists data, read_image folder filename = Some data.
Proof.
  intros Hin. apply in_map_iff in Hin as ([name data] & Hname & Hin).
  simpl in Hname. subst name. unfold read_image.
  destruct (find _ (rev folder)) as [entry|] eqn:Hf.
  - now exists (snd entry).
  - exfalso. apply in_rev in Hin.
    pose proof (find_none _ _ Hf (filename, data) Hin) as Hno.
    simpl in Hno. rewrite str_eqb_refl in Hno. discriminate.
Qed.



Section HandlersMore.
Variable table : Type.
Variable E : Engines table.

(** X15.  Right after a document has been processed, every image link of
    the response can be downloaded: [GET /images/{filename}] finds a file
    under the file name of the link. *)
Theorem processed_images_download (fi : FileInfo.t) (b : bool)
    (w w' : World.t) (resp : PDFExtractResponse.t table) (l : ImageLink.t) :
  process_pdf E fi b w = (Ok resp, w') ->
  In l (PDFExtractResponse.images resp) ->
  exists data, download_image (ImageLink.filename l) w' = (Ok data, w').
Proof.
  intros H Hin.
  apply process_pdf_ok in H
    as (pages & tpages & rows & trows & summary & _ & _ & _ & -> & _ & _ & _
        & Hfs & _).
  cbn [PDFExtractResponse.images] in Hin.
  unfold download_image.
  destruct (@read_image_in (World.image_folder w') (ImageLink.filename l))
    as [data ->]; [|now exists data].
  rewrite Hfs. apply in_or_app. right. now apply in_map.
Qed.

Lemma find_no_document (d : Database) (document_id : str) :
  (forall doc, In doc d -> PDFDocument.id doc <> document_id) ->
  get_document_with_relations d document_id = None.
Proof.
  intros H. unfold get_document_with_relations.
  destruct (find _ d) as [doc|] eqn:Hf; [|reflexivity].
  apply find_some in Hf as [Hin Hid]. apply str_eqb_eq in Hid.
  now apply H in Hin.
Qed.

(** X17.  For an identifier no stored document has,
    [GET /documents/{document_id}] answers 404 with the identifier in the
    detail, and changes nothing. *)
Theorem unknown_document_is_404 (document_id : str) (w : World.t) :
  (forall doc, In doc (World.db w) -> PDFDocument.id doc <> document_id) ->
  get_pdf_document E document_id w =
    (Raise (HTTPException 404
              (lit "Document with ID " ++ document_id ++ lit " not found")),
     w).
Proof.
  intros H. unfold get_pdf_document, get_pdf_by_id, bind, get_db.
  now rewrite find_no_document.
Qed.

Lemma extract_pdf_ok (file : UploadFile.t) (b : bool) (w w' : World.t)
    (r : PDFExtractResponse.t table) :
  extract_pdf E file b w = (Ok r, w') ->
  has_pdf_extension (UploadFile.filename file) = true /\
  PDFExtractResponse.id r <> [] /\
  exists fi w1,
    save_upload_file E file w = (Ok fi, w1) /\
    process_pdf E fi b w1 = (Ok r, w').
Proof.
  unfold extract_pdf.
  destruct (has_pdf_extension (UploadFile.filename file)); [|discriminate].
  cbn [negb]. unfold try_except.
  destruct (extract_body E file b w) as [[r0|e] w0] eqn:Hbody; [|discriminate].
  intros H. inversion H; subst r0 w0; clear H.
  unfold extract_body in Hbody.
  bind_inv Hbody as fi w1 Hsave. bind_inv Hbody as r1 w2 Hproc.
  destruct (PDFExtractResponse.id r1) eqn:Hid; simpl in Hbody; [discriminate|].
  unfold ret in Hbody. inversion Hbody; subst r1 w2.
  split; [reflexivity|]. split; [congruence|]. eauto.
Qed.

(** X18.  What [POST /extract] returned can be fetched again: after a
    successful upload, [GET /documents/{id}] with the identifier of the
    response answers with the same file name, text, tables, images and
    creation time, and without the summary.  The identifier of a
    successful response is never empty. *)
Theorem uploaded_document_can_be_fetched (file : UploadFile.t) (b : bool)
    (w w' : World.t) (r : PDFExtractResponse.t table) :
  (forall t, json_loads E (json_dumps E t) = Ok t) ->
  extract_pdf E file b w = (Ok r, w') ->
  PDFExtractResponse.id r <> [] /\
  get_pdf_document E (PDFExtractResponse.id r) w' =
    (Ok (PDFExtractResponse.mk (PDFExtractResponse.id r)
           (PDFExtractResponse.filename r) (PDFExtractResponse.text r)
           (PDFExtractResponse.tables r) (PDFExtractResponse.images r) None
           (PDFExtractResponse.created_at r)), w').
Proof.
  intros Hjson H.
  apply extract_pdf_ok in H as (_ & Hid & fi & w1 & _ & Hproc).
  split; [assumption|].
  unfold get_pdf_document.
  erewrite bind_step by (eapply retrieval_after_process; eassumption).
  reflexivity.
Qed.

End HandlersMore.

(* ================================================================== *)
(** ** Further properties: reading tables back *)

Section TableFacts.
Variable V : Type.
Implicit Types (d : PyDict.dict (list V)) (k : str).

Lemma get_not_contained d k :
  PyDict.contains d k = false -> PyDict.get d k = None.
Proof.
  induction d as [|[k0 v0] d IH]; simpl; [reflexivity|].
  intros H. apply orb_false_iff in H as [Hk Hd]. now rewrite Hk, IH.
Qed.

Lemma total_tables_set d k (v : list V) :
  total_tables (PyDict.set d k v)
    + length (match PyDict.get d k with Some l => l | None => [] end)
  = total_tables d + length v.
Proof.
  unfold total_tables. induction d as [|[k0 v0] d IH]; simpl; [lia|].
  destruct (str_eqb k0 k); simpl; lia.
Qed.

Lemma set_set d k (a b : list V) :
  PyDict.set (PyDict.set d k a) k b = PyDict.set d k b.
Proof.
  induction d as [|[k0 v0] d IH]; simpl.
  - now rewrite str_eqb_refl.
  - destruct (str_eqb k0 k) eqn:Hk; simpl; rewrite Hk; [reflexivity|].
    now rewrite IH.
Qed.

Lemma get_set d k (a : list V) : PyDict.get (PyDict.set d k a) k = Some a.
Proof.
  induction d as [|[k0 v0] d IH]; simpl.
  - now rewrite str_eqb_refl.
  - destruct (str_eqb k0 k) eqn:Hk; simpl; now rewrite Hk.
Qed.

Lemma nonempty_set d k (v : list V) :
  Forall (fun item => snd item <> []) d -> v <> [] ->
  Forall (fun item => snd item <> []) (PyDict.set d k v).
Proof.
  intros Hd Hv. induction Hd as [|[k0 v0] d H0 Hd IH]; simpl.
  - now repeat constructor.
  - destruct (str_eqb k0 k); constructor; auto.
Qed.

End TableFacts.

Section RetrievalMore.
Variable table : Type.
Variable E : Engines table.

(** Reading the table rows back adds one table per row to the mapping. *)
Lemma table_pages_of_total (rows : list Table.t) :
  forall (d d' : TableData table),
    table_pages_of E rows d = Ok d' ->
    total_tables d' = total_tables d + length rows /\
    (Forall (fun item => snd item <> []) d ->
     Forall (fun item => snd item <> []) d').
Proof.
  induction rows as [|row rest IH]; intros d d' H; simpl in H.
  - inversion H; subst. split; [simpl; lia|auto].
  - destruct (json_loads E (Table.table_data row)) as [t|e]; [|discriminate].
    set (key := page_label (Table.page_number row)) in *.
    destruct (PyDict.contains d key) eqn:Hc; cbn [negb] in H.
    + apply IH in H as [Htot Hne]. split.
      * pose proof (total_tables_set d key
                      (match PyDict.get d key with Some l => l | None => [] end
                       ++ [t])) as Hs.
        rewrite length_app in Hs. simpl in *. lia.
      * intros Hd. apply Hne. apply nonempty_set; [assumption|].
        now destruct (match PyDict.get d key with Some l => l | None => [] end).
    + rewrite get_set, set_set in H. simpl app in H.
      apply IH in H as [Htot Hne]. split.
      * pose proof (total_tables_set d key [t]) as Hs.
        rewrite get_not_contained in Hs by assumption. simpl in *. lia.
      * intros Hd. apply Hne. apply nonempty_set; [assumption|discriminate].
Qed.

(** X19.  A response of [get_pdf_by_id] holds every stored table of the
    document exactly once, and every stored image: the tables under all
    page labels together are as many as the table rows, no page label has
    an empty list, and there is one image link per image row. *)
Theorem retrieval_keeps_every_row (document_id : str) (w w' : World.t)
    (r : PDFExtractResponse.t table) :
  get_pdf_by_id E document_id w = (Ok (Some r), w') ->
  exists document,
    get_document_with_relations (World.db w) document_id = Some document /\
    total_tables (PDFExtractResponse.tables r)
      = length (PDFDocument.tables document) /\
    Forall (fun item => snd item <> []) (PDFExtractResponse.tables r) /\
    map ImageLink.filename (PDFExtractResponse.images r)
      = map Image.filename (PDFDocument.images document) /\
    PDFExtractResponse.filename r = PDFDocument.original_filename document.
Proof.
  unfold get_pdf_by_id, bind, get_db, lift, ret.
  destruct (get_document_with_relations _ _) as [document|]; [|discriminate].
  destruct (table_pages_of E (PDFDocument.tables document) [])
    as [table_pages|e] eqn:Ht; [|discriminate].
  intros H. inversion H; subst r w'; clear H.
  apply table_pages_of_total in Ht as [Htot Hne].
  exists document. cbn. repeat split; auto.
  rewrite map_map. reflexivity.
Qed.

(** X20.  The extension check of [POST /extract] looks at the last four
    characters of the file name only: it passes exactly for a name that
    ends in a dot followed by p, d and f, each in either case. *)
Theorem pdf_extension_check (filename : str) :
  has_pdf_extension filename = true <-> named_pdf filename.
Proof. apply has_pdf_extension_iff. Qed.

End RetrievalMore.

(* ================================================================== *)
(** ** The further properties at work on the concrete installation *)

Lemma get_llm_cached_ignores_settings_witness :
  get_llm Demo.misconfigured Demo.world_with_llm
    = (Ok Demo.llm, Demo.world_with_llm).
Proof.
  apply (get_llm_cached_ignores_settings Demo.engines Demo.misconfigured
           Demo.empty_world).
  reflexivity.
Defined.

Lemma get_llm_unsupported_provider_witness :
  get_llm Demo.misconfigured Demo.empty_world =
    (Raise (ValueError
              (lit "Unsupported LLM provider: " ++ lit "bedrock"
                 ++ lit ". Supported providers: ollama, openrouter")),
     Demo.empty_world).
Proof.
  apply (get_llm_unsupported_provider Demo.misconfigured Demo.empty_world).
  - reflexivity.
  - repeat constructor.
  - discriminate.
  - discriminate.
Defined.

Lemma reset_llm_then_get_llm_witness :
  exists w1,
    bind reset_llm (fun _ => get_llm Demo.engines) Demo.stale_world
      = (Ok Demo.llm, w1) /\
    World._llm w1 = Some Demo.llm /\
    World.db w1 = World.db Demo.stale_world /\
    World.trace w1 = World.trace Demo.stale_world /\
    World.image_folder w1 = World.image_folder Demo.stale_world.
Proof.
  apply (reset_llm_then_get_llm Demo.engines Demo.stale_world).
  reflexivity.
Defined.

Lemma llm_status_matches_handle_witness :
  exists st w',
    get_llm_status Demo.engines Demo.empty_world = (Ok st, w') /\
    (LLMStatus.available st = true ->
     match World._llm w' with
     | Some (ChatOllama base_url model) =>
         LLMStatus.host st = base_url /\ LLMStatus.model st = model
     | Some (ChatOpenAI _ base_url model _) =>
         LLMStatus.host st = base_url /\ LLMStatus.model st = model
     | None => False
     end).
Proof.
  apply (llm_status_matches_handle Demo.engines Demo.empty_world).
  reflexivity.
Defined.

Lemma summarize_text_answer_witness :
  exists summary,
    fst (summarize_text Demo.mumbler (lit "Hello") 500 Demo.empty_world)
      = Ok (Some summary) /\
    summary = strip (lit "  ") /\
    (forall c r, summary = c :: r -> isspace c = false) /\
    (forall r c, summary = r ++ [c] -> isspace c = false) /\
    (blank (lit "  ") -> summary = []).
Proof.
  apply (summarize_text_answer Demo.mumbler 500 Demo.empty_world
           (w1 := Demo.world_with_llm) (llm := Demo.llm)).
  - intros H. inversion H as [|c s Hc Hs]. discriminate Hc.
  - reflexivity.
  - reflexivity.
Defined.

Lemma generate_summary_calls_backend_witness :
  World.trace
    (snd (generate_summary Demo.engines
            [(lit "Page 1", []); (lit "Page 2", [])] Demo.empty_world)) =
    World.trace Demo.empty_world ++
      [EvLLMInvoke Demo.llm
         [SystemMessage system_prompt;
          HumanMessage
            (user_prompt 500
               (slice_to 15000
                  (full_text_of [(lit "Page 1", []); (lit "Page 2", [])])))]] /\
  generate_summary Demo.engines [] Demo.empty_world = (Ok None, Demo.empty_world).
Proof.
  apply (generate_summary_calls_backend Demo.engines (texts := [[]; []])
           Demo.empty_world (w1 := Demo.world_with_llm)).
  - discriminate.
  - reflexivity.
Defined.

Lemma unreadable_pdf_is_400_witness :
  exists w',
    extract_pdf Demo.broken Demo.upload true Demo.empty_world =
      (Raise (HTTPException 400
                (lit "Error processing PDF: " ++ exn_str Demo.cannot_open)), w') /\
    World.trace w' =
      World.trace Demo.empty_world ++
        [EvSaveUpload (lit "a.pdf"); EvFitzOpen Demo.pdf_path] /\
    World.image_folder w' = World.image_folder Demo.empty_world.
Proof.
  apply (unreadable_pdf_is_400 Demo.broken Demo.upload true Demo.empty_world
           (fi := Demo.file_info)); reflexivity.
Defined.

Lemma failed_processing_leaves_document_witness :
  fst (process_pdf Demo.broken Demo.file_info true Demo.empty_world)
    = Raise Demo.cannot_open /\
  World.db (snd (process_pdf Demo.broken Demo.file_info true Demo.empty_world)) =
    [] ++ [PDFDocument.mk (lit "doc-0") Demo.pdf_path (lit "a.pdf")
             1700000000%N [] [] []].
Proof.
  apply (failed_processing_leaves_document Demo.broken Demo.file_info true
           Demo.empty_world); reflexivity.
Defined.

Lemma image_links_in_page_order_witness :
  map (fun l => (ImageLink.page l, ImageLink.index l))
      (PDFExtractResponse.images Demo.response) = [(2, 1)] /\
  length (PDFExtractResponse.images Demo.response) = 1 /\
  Forall (fun l => ImageLink.document_id l = lit "doc-0")
         (PDFExtractResponse.images Demo.response).
Proof.
  apply (image_links_in_page_order Demo.engines Demo.file_info true
           Demo.empty_world (w' := Demo.world_after) (resp := Demo.response)
           (pages := [Demo.page1; Demo.page2])).
  - reflexivity.
  - vm_compute. reflexivity.
Defined.

Lemma extract_tables_lookup_witness :
  (forall i,
     PyDict.get [(lit "Page 1", [lit "[[1]]"])] (page_label (i + 1)) =
       match nth_error [[lit "[[1]]"]; []] i with
       | Some (t :: ts) => Some (t :: ts)
       | _ => None
       end) /\
  Forall (fun item => snd item <> []) [(lit "Page 1", [lit "[[1]]"])] /\
  PyDict.len [(lit "Page 1", [lit "[[1]]"])] <= 2.
Proof.
  apply (extract_tables_lookup Demo.engines Demo.file_info Demo.empty_world
           (w' := snd (extract_tables Demo.engines Demo.file_info Demo.empty_world))).
  - reflexivity.
  - reflexivity.
Defined.

Lemma processed_images_download_witness :
  exists data,
    download_image (lit "doc-0_page_2_image_1.png") Demo.world_after
      = (Ok data, Demo.world_after).
Proof.
  apply (processed_images_download Demo.engines Demo.file_info true
           Demo.empty_world (resp := Demo.response) Demo.link).
  - vm_compute. reflexivity.
  - left. reflexivity.
Defined.

Lemma unknown_document_is_404_witness :
  get_pdf_document Demo.engines (lit "doc-7") Demo.world_after =
    (Raise (HTTPException 404
              (lit "Document with ID " ++ lit "doc-7" ++ lit " not found")),
     Demo.world_after).
Proof.
  apply (unknown_document_is_404 Demo.engines Demo.world_after).
  intros doc [<-|[]]. discriminate.
Defined.

Lemma uploaded_document_can_be_fetched_witness :
  PDFExtractResponse.id Demo.response <> [] /\
  get_pdf_document Demo.engines (PDFExtractResponse.id Demo.response)
    (snd (extract_pdf Demo.engines Demo.upload true Demo.empty_world)) =
    (Ok (PDFExtractResponse.mk (PDFExtractResponse.id Demo.response)
           (PDFExtractResponse.filename Demo.response)
           (PDFExtractResponse.text Demo.response)
           (PDFExtractResponse.tables Demo.response)
           (PDFExtractResponse.images Demo.response) None
           (PDFExtractResponse.created_at Demo.response)),
     snd (extract_pdf Demo.engines Demo.upload true Demo.empty_world)).
Proof.
  apply (uploaded_document_can_be_fetched Demo.engines Demo.upload true
           Demo.empty_world).
  - intros t. reflexivity.
  - vm_compute. reflexivity.
Defined.

Lemma retrieval_keeps_every_row_witness :
  exists document,
    get_document_with_relations (World.db Demo.world_after) (lit "doc-0")
      = Some document /\
    total_tables (PDFExtractResponse.tables Demo.retrieved)
      = length (PDFDocument.tables document) /\
    Forall (fun item => snd item <> []) (PDFExtractResponse.tables Demo.retrieved) /\
    map ImageLink.filename (PDFExtractResponse.images Demo.retrieved)
      = map Image.filename (PDFDocument.images document) /\
    PDFExtractResponse.filename Demo.retrieved
      = PDFDocument.original_filename document.
Proof.
  apply (retrieval_keeps_every_row Demo.engines (lit "doc-0") Demo.world_after
           (w' := Demo.world_after)).
  vm_compute. reflexivity.
Defined.


Lemma process_writes_only_own_images_witness :
  read_image
    (World.image_folder
       (snd (process_pdf Demo.engines Demo.file_info false Demo.world_after)))
    (lit "doc-0_page_2_image_1.png")
  = read_image (World.image_folder Demo.world_after)
      (lit "doc-0_page_2_image_1.png").
Proof.
  apply process_writes_only_own_images.
  - vm_compute. intuition discriminate.
  - intros pages pg img Hopen Hpg Himg.
    vm_compute in Hopen. inversion Hopen; subst pages.
    destruct Hpg as [<-|[<-|[]]]; simpl in Himg; [contradiction|].
    destruct Himg as [<-|[]]. vm_compute. intuition discriminate.
  - repeat split; try discriminate. vm_compute. intuition discriminate.
  - intros page index image_ext H.
    unfold image_filename_of in H. vm_compute in H. discriminate H.
Defined.
